(** * rearguarde API: parameter handling and request dispatch

    A shallow embedding of [rearguarde/api/util.py] and
    [rearguarde/api/resources.py], and the properties of the
    parameter-to-filter layer proved about it.

    Python values are an inductive type, a [dict] is an association list
    in insertion order, and a handler is a computation in a small monad
    that threads the log and the list of backend calls and may raise. *)

From Stdlib Require Import List String Ascii ZArith Bool Lia DecimalString.
Import ListNotations.
Local Open Scope string_scope.
Local Open Scope Z_scope.
Set Warnings "-register-all".

(* ===================================================================== *)
(** ** Python values and the builtins the code applies to them *)
(* ===================================================================== *)

Module Py.

(** The values that travel through the handlers: [None], integers (the
    parser's [inputs.positive]), strings (query and path parameters),
    dates ([inputs.date_from_iso8601]) and lists. *)
Inductive value : Type :=
| VNone
| VInt (n : Z)
| VStr (s : string)
| VDate (year month day : Z)
| VList (items : list value).

(** Exceptions.  [Abort] is what [api.abort(code, message, **kwargs)]
    raises: the HTTP status, the message and the keyword payload. *)
Inductive exc : Type :=
| ValueError
| TypeError
| KeyError (key : string)
| NameError (name : string)
| Abort (code : Z) (message : string) (fields : list (string * value))
| OtherError (name : string).

Inductive result (A : Type) : Type :=
| Return (a : A)
| Raise (e : exc).
Arguments Return {A} a.
Arguments Raise {A} e.

(** [bool(v)]: [None], [0], the empty string and the empty list are
    falsy, everything else (every date too) is truthy. *)
Definition truthy (v : value) : bool :=
  match v with
  | VNone => false
  | VInt n => negb (n =? 0)
  | VStr s => negb (String.eqb s "")
  | VDate _ _ _ => true
  | VList items => match items with [] => false | _ :: _ => true end
  end.

(** [s.endswith(suffix)] *)
Definition endswith (s suffix : string) : bool :=
  let n := String.length s in
  let m := String.length suffix in
  (m <=? n)%nat && String.eqb (substring (n - m) m s) suffix.

(** *** [int(v)] *)

(** The whitespace [int] skips around an ASCII literal: tab, newline,
    vertical tab, form feed, carriage return and space. *)
Definition is_space (c : ascii) : bool :=
  let n := nat_of_ascii c in
  ((9 <=? n) && (n <=? 13) || (n =? 32))%nat.

Definition is_digit (c : ascii) : bool :=
  let n := nat_of_ascii c in ((48 <=? n) && (n <=? 57))%nat.

Definition digit_value (c : ascii) : Z := Z.of_nat (nat_of_ascii c) - 48.

Fixpoint lstrip (l : list ascii) : list ascii :=
  match l with
  | c :: rest => if is_space c then lstrip rest else l
  | [] => []
  end.

Definition strip (l : list ascii) : list ascii := rev (lstrip (rev (lstrip l))).

(** Decimal digits, with single underscores allowed between two digits.
    [after_digit] tells whether the previous character was a digit. *)
Fixpoint parse_digits (acc : Z) (after_digit : bool) (l : list ascii) : option Z :=
  match l with
  | [] => if after_digit then Some acc else None
  | c :: rest =>
      if is_digit c then parse_digits (10 * acc + digit_value c) true rest
      else if Ascii.eqb c "_" then
        if after_digit then parse_digits acc false rest else None
      else None
  end.

(** The interpreter's default limit on the number of digits of a decimal
    literal, [sys.int_info.default_max_str_digits]: leading zeros count,
    the sign and the underscores do not. *)
Definition max_str_digits : Z := 4300.

Definition count_digits (l : list ascii) : Z :=
  Z.of_nat (List.length (filter is_digit l)).

Definition parse_int (s : string) : option Z :=
  let literal := strip (list_ascii_of_string s) in
  if max_str_digits <? count_digits literal then None
  else
    match literal with
    | c :: rest =>
        if Ascii.eqb c "-" then option_map Z.opp (parse_digits 0 false rest)
        else if Ascii.eqb c "+" then parse_digits 0 false rest
        else parse_digits 0 false (c :: rest)
    | [] => None
    end.

(** The strings on which [parse_int] is Python's [int]: those made of
    ASCII characters only.  Python strings also hold characters outside
    ASCII, among them further decimal digits and spaces that [int]
    accepts; a byte string encodes them with bytes above 127. *)
Definition is_ascii (s : string) : bool :=
  forallb (fun c => (nat_of_ascii c <? 128)%nat) (list_ascii_of_string s).

(** [int(v)]: an integer is itself, a string is parsed as a base-10
    literal ([ValueError] when it is not one, or when it has more digits
    than the interpreter's default limit), [None], dates and lists raise
    [TypeError].  On strings this is [int] for ASCII strings ([is_ascii]);
    the digits and spaces outside ASCII that Python also accepts are not
    literals here. *)
Definition int (v : value) : result Z :=
  match v with
  | VInt n => Return n
  | VStr s => match parse_int s with Some n => Return n | None => Raise ValueError end
  | VNone | VDate _ _ _ | VList _ => Raise TypeError
  end.

(** *** [str(v)], as the f-strings format a value *)

Definition str_of_Z (n : Z) : string := NilZero.string_of_int (Z.to_int n).

(** [n] in decimal, padded with zeros on the left to [width] characters. *)
Definition zero_padded (width : nat) (n : Z) : string :=
  let s := str_of_Z n in
  string_of_list_ascii (repeat "0"%char (width - String.length s)) ++ s.

Definition hex_digit (n : nat) : ascii :=
  ascii_of_nat (if (n <? 10)%nat then 48 + n else 87 + n).

(** One character of [repr(s)] for the quote [q]. *)
Definition repr_char (q c : ascii) : string :=
  let n := nat_of_ascii c in
  if Ascii.eqb c "\" then "\\"
  else if Ascii.eqb c q then String "\" (String q "")
  else if (n =? 9)%nat then "\t"
  else if (n =? 10)%nat then "\n"
  else if (n =? 13)%nat then "\r"
  else if ((n <? 32) || (n =? 127))%nat then
    String "\" (String "x" (String (hex_digit (n / 16)) (String (hex_digit (n mod 16)) "")))
  else String c "".

Definition double_quote : ascii := ascii_of_nat 34.

Definition contains_char (c : ascii) (s : string) : bool :=
  existsb (Ascii.eqb c) (list_ascii_of_string s).

(** [repr] of a string: single quotes, unless the string has a single
    quote and no double quote.  Bytes above 127 are kept as they are. *)
Definition repr_str (s : string) : string :=
  let q := if contains_char "'" s && negb (contains_char double_quote s)
           then double_quote else "'"%char in
  String q (concat "" (map (repr_char q) (list_ascii_of_string s)) ++ String q "").

Definition str_date (y m d : Z) : string :=
  zero_padded 4 y ++ "-" ++ zero_padded 2 m ++ "-" ++ zero_padded 2 d.

Fixpoint repr (v : value) : string :=
  match v with
  | VNone => "None"
  | VInt n => str_of_Z n
  | VStr s => repr_str s
  | VDate y m d =>
      "datetime.date(" ++ str_of_Z y ++ ", " ++ str_of_Z m ++ ", " ++ str_of_Z d ++ ")"
  | VList items => "[" ++ concat ", " (map repr items) ++ "]"
  end.

Definition str (v : value) : string :=
  match v with
  | VStr s => s
  | VDate y m d => str_date y m d
  | _ => repr v
  end.

End Py.
Export Py.

(* ===================================================================== *)
(** ** Dictionaries *)
(* ===================================================================== *)

(** A Python [dict] with string keys: the entries in insertion order.  A
    key is looked up at its first entry, assignment to a key that is
    present replaces the value in place and a new key goes to the end, so
    the operations never introduce a second entry for a key. *)
Definition dict : Type := list (string * value).

Module Dict.

Definition keys (d : dict) : list string := map fst d.

(** [d.get(key)]: [None] here stands for a missing key. *)
Fixpoint get (d : dict) (key : string) : option value :=
  match d with
  | [] => None
  | (k, v) :: rest => if String.eqb k key then Some v else get rest key
  end.

(** [d[key]] *)
Definition getitem (d : dict) (key : string) : result value :=
  match get d key with
  | Some v => Return v
  | None => Raise (KeyError key)
  end.

(** [d[key] = v] *)
Fixpoint set (d : dict) (key : string) (v : value) : dict :=
  match d with
  | [] => [(key, v)]
  | (k, w) :: rest =>
      if String.eqb k key then (k, v) :: rest else (k, w) :: set rest key v
  end.

Fixpoint remove (d : dict) (key : string) : dict :=
  match d with
  | [] => []
  | (k, w) :: rest => if String.eqb k key then rest else (k, w) :: remove rest key
  end.

(** [d.pop(key)]: the value and the dictionary without the key. *)
Definition pop (d : dict) (key : string) : result (value * dict) :=
  match get d key with
  | Some v => Return (v, remove d key)
  | None => Raise (KeyError key)
  end.

(** [dict(d)]: a new dictionary with the same entries. *)
Definition copy (d : dict) : dict := d.

(** [for key in ks: d[key] = g(key)], skipping the keys where [g] gives
    nothing: the loop behind [update] and the dict comprehensions. *)
Definition assign_all (g : string -> option value) (ks : list string) (d : dict)
    : dict :=
  fold_left
    (fun acc key => match g key with Some v => set acc key v | None => acc end)
    ks d.

(** [d.update(other)]: [d[key] = other[key]] for each key of [other]. *)
Definition update (d other : dict) : dict :=
  assign_all (get other) (keys other) d.

(** [{key: val(key, d[key]) for key in d if cond(key, d[key])}] *)
Definition comprehension (d : dict) (cond : string -> value -> bool)
    (val : string -> value -> value) : dict :=
  assign_all
    (fun key =>
       match get d key with
       | Some v => if cond key v then Some (val key v) else None
       | None => None
       end)
    (keys d) [].

End Dict.

(* ===================================================================== *)
(** ** Effects: the log, the backend calls, exceptions *)
(* ===================================================================== *)

Inductive level : Type := INFO | WARNING | ERROR.

(** The retrieval backends of [retrieval.retrievers]. *)
Inductive retriever : Type :=
| ArtistRetriever
| GenreRetriever
| ReleaseRetriever
| SheetRetriever
| SongRetriever
| SongWithArtistsRetriever
| TrackTabRetriever.

(** What a request leaves behind: the records written to the logger and
    the calls of [get_objects], each with the filter mapping it received,
    both in the order they happened. *)
Record state : Type := mkState {
  log : list (level * string);
  calls : list (retriever * dict)
}.

Definition M (A : Type) : Type := state -> result A * state.

Definition ret {A} (a : A) : M A := fun st => (Return a, st).

Definition bind {A B} (c : M A) (k : A -> M B) : M B :=
  fun st =>
    match c st with
    | (Return a, st') => k a st'
    | (Raise e, st') => (Raise e, st')
    end.

Definition raise {A} (e : exc) : M A := fun st => (Raise e, st).

Definition lift {A} (r : result A) : M A := fun st => (r, st).

Declare Scope monad_scope.
Delimit Scope monad_scope with monad.
Notation "x <- c ;; k" := (bind c (fun x => k))
  (at level 61, c at next level, right associativity) : monad_scope.
Notation "c ;; k" := (bind c (fun _ => k))
  (at level 61, right associativity) : monad_scope.
Local Open Scope monad_scope.

(** [for x in l: body(x)] *)
Fixpoint for_in {A} (l : list A) (body : A -> M unit) : M unit :=
  match l with
  | [] => ret tt
  | x :: rest => body x ;; for_in rest body
  end.

Definition logger_log (lv : level) (message : string) : M unit :=
  fun st => (Return tt, mkState (log st ++ [(lv, message)]) (calls st)).

Definition initial : state := mkState [] [].

(** The status the framework answers with: 200 when the handler returns,
    the code of an abort, 500 for any other exception. *)
Definition status_code {A} (r : result A) : Z :=
  match r with
  | Return _ => 200
  | Raise (Abort code _ _) => code
  | Raise _ => 500
  end.

(* ===================================================================== *)
(** ** [api/util.py] *)
(* ===================================================================== *)

(** A [flask_restx] request parser, seen through the one thing the code
    asks of it: [parse_args()] gives the mapping of the declared
    parameters or aborts the request. *)
Record RequestParser : Type := { parse_args : result dict }.

Module Util.

Definition INVALID_PARAMS_STATUS_CODE : Z := 400.

(** The parameter names [api.abort] binds before the keyword payload:
    [self] of the method and the positional [code] and [message]. *)
Definition abort_keyword (key : string) : bool :=
  String.eqb key "self" || String.eqb key "code" || String.eqb key "message".

(** [api.abort(code, message, **kwargs)]: the abort with its status,
    message and keyword payload.  When a key of [kwargs] is one of the
    names above the call itself fails, with [TypeError] (several values
    for one argument), and nothing is aborted. *)
Definition api_abort {A} (code : Z) (message : string) (kwargs : dict) : M A :=
  if existsb abort_keyword (Dict.keys kwargs) then raise TypeError
  else raise (Abort code message kwargs).

(** util.py, lines 14-15: the message for one key and its value,
    [f'Invalid {key}: {v}. ' + f'{key} must be a positive integer']. *)
Definition invalid_message (key : string) (v : value) : value :=
  VStr (("Invalid " ++ key ++ ": " ++ str v ++ ". ")
        ++ (key ++ " must be a positive integer")).

(** util.py, lines 14-15: the keyword arguments of the abort, one
    message for each key of the mapping. *)
Definition validation_messages (request_parameters : dict) : dict :=
  Dict.comprehension request_parameters (fun _ _ => true) invalid_message.

(** util.py, lines 11-15: the body of the loop, for one key. *)
Definition check_parameter (request_parameters : dict) (key : string) : M unit :=
  invalid <- (if endswith key "_id"
              then v <- lift (Dict.getitem request_parameters key) ;;
                   n <- lift (int v) ;;
                   ret (n <? 1)
              else ret false) ;;
  if (invalid : bool) then
    v <- lift (Dict.getitem request_parameters key) ;;
    logger_log ERROR ("Incorrect value for parameter " ++ key ++ "=" ++ str v) ;;
    api_abort INVALID_PARAMS_STATUS_CODE "Input payload validation failed"
      (validation_messages request_parameters)
  else ret tt.

(** util.py, lines 9-15.  The [api] argument is only used for its
    [abort]. *)
Definition abort_on_invalid_parameters (request_parameters : dict) : M unit :=
  for_in (Dict.keys request_parameters) (check_parameter request_parameters).

(** util.py, lines 18-21 *)
Definition consolidate_parameters (raw_parameters : dict)
    (restx_parser : RequestParser) : result dict :=
  let result := Dict.copy raw_parameters in
  match parse_args restx_parser with
  | Return parsed => Return (Dict.update result parsed)
  | Raise e => Raise e
  end.

(** util.py, lines 24-25 *)
Definition remove_empty_parameters (parameter_values : dict) : dict :=
  Dict.comprehension parameter_values (fun _ v => truthy v) (fun _ v => v).

End Util.
Export Util.

(* ===================================================================== *)
(** ** [api/resources.py] *)
(* ===================================================================== *)

Section Resources.

(** The records are opaque to this layer, and a retrieval backend is
    [get_objects(filters)]: a sequence of records, or an exception.  The
    backends read the filter mapping and do not change it. *)
Variable Record : Type.
Variable backend : retriever -> dict -> result (list Record).

(** What a handler returns: [None], a record, a list of records or a
    dictionary ([{}] is [PDict []]). *)
Inductive payload : Type :=
| PNone
| PRecord (r : Record)
| PList (l : list Record)
| PDict (fields : list (string * payload)).

(** [<r>(g.session).get_objects(filters)]: the call is recorded. *)
Definition get_objects (r : retriever) (filters : dict) : M (list Record) :=
  fun st => (backend r filters, mkState (log st) (calls st ++ [(r, filters)])).

(** The [get] of the list routes, e.g. resources.py, lines 35-40:
    [<r>(g.session).get_objects(remove_empty_parameters(
       consolidate_parameters(request.args, self.parser)))] *)
Definition list_get (r : retriever) (args : dict) (parser : RequestParser)
    : M payload :=
  parameters <- lift (consolidate_parameters args parser) ;;
  objects <- get_objects r (remove_empty_parameters parameters) ;;
  ret (PList objects).

Definition Artists_get := list_get ArtistRetriever.
Definition Genres_get := list_get GenreRetriever.
Definition Releases_get := list_get ReleaseRetriever.
Definition Songs_get := list_get SongRetriever.
Definition SongsWithArtists_get := list_get SongWithArtistsRetriever.
Definition Sheets_get := list_get SheetRetriever.
Definition TrackTabs_get := list_get TrackTabRetriever.

(** The first record, or [{}] when there is none. *)
Definition first_or_empty (retrieved : list Record) : payload :=
  match retrieved with
  | first :: _ => PRecord first
  | [] => PDict []
  end.

(** The [get] of the single-item routes, e.g. resources.py, lines 49-59.
    [key] is the name of the path parameter, [label] the entity name of
    the warning, [entity_id] the path segment, a string. *)
Definition by_id_get (key label : string) (r : retriever) (entity_id : string)
    : M payload :=
  abort_on_invalid_parameters [(key, VStr entity_id)] ;;
  n <- lift (int (VStr entity_id)) ;;
  retrieved <- get_objects r [("id", VInt n)] ;;
  match retrieved with
  | first :: _ => ret (PRecord first)
  | [] =>
      logger_log WARNING (label ++ " was not found for ID=" ++ entity_id) ;;
      ret (PDict [])
  end.

Definition ArtistById_get := by_id_get "artist_id" "Artist" ArtistRetriever.
Definition GenreById_get := by_id_get "genre_id" "Genre" GenreRetriever.
Definition ReleaseById_get := by_id_get "release_id" "Release" ReleaseRetriever.
Definition SongById_get := by_id_get "song_id" "Song" SongRetriever.
Definition SheetById_get := by_id_get "sheet_id" "Sheet" SheetRetriever.
Definition TrackTabById_get := by_id_get "tracktab_id" "TrackTab" TrackTabRetriever.

(** [logging.info(...)] at resources.py, line 317: the module imports
    [getLogger] from [logging] and never binds the name [logging], so
    evaluating it raises [NameError]. *)
Definition logging_info (message : string) : M unit :=
  raise (NameError "logging").

(** resources.py, lines 309-325 *)
Definition CombinedArtistSongRelease_get (args : dict) (parser : RequestParser)
    : M payload :=
  let substring_target := "name" in
  morphed_args <- lift (consolidate_parameters args parser) ;;
  popped <- lift (Dict.pop morphed_args "substring") ;;
  let morphed_args := Dict.set (snd popped) substring_target (fst popped) in
  name <- lift (Dict.getitem morphed_args substring_target) ;;
  if negb (truthy name) then
    logging_info "Empty substring given for omnibar search endpoint" ;;
    ret PNone
  else
    let morphed_args :=
      Dict.set morphed_args "sort_by" (VStr ("len(" ++ substring_target ++ ")!asc")) in
    artists <- get_objects ArtistRetriever morphed_args ;;
    songs <- get_objects SongRetriever morphed_args ;;
    releases <- get_objects ReleaseRetriever morphed_args ;;
    ret (PDict [("artists", PList artists);
                ("songs", PList songs);
                ("releases", PList releases)]).

End Resources.

Arguments PNone {Record}.
Arguments PRecord {Record} r.
Arguments PList {Record} l.
Arguments PDict {Record} fields.

(** Stub backends for concrete runs: records are numbers, every backend
    finds nothing, or every backend finds the same two records. *)
Definition empty_backend : retriever -> dict -> result (list nat) :=
  fun _ _ => Return [].

Definition two_backend : retriever -> dict -> result (list nat) :=
  fun _ _ => Return [7%nat; 9%nat].

Definition parser_of (parsed : dict) : RequestParser := {| parse_args := Return parsed |}.


(* ===================================================================== *)
(** ** Vocabulary of the properties *)
(* ===================================================================== *)

(** An empty string, an empty collection or an absent value. *)
Definition empty_value (v : value) : Prop :=
  v = VNone \/ v = VStr "" \/ v = VList [].

(** The filter mapping of the combined search, from the consolidated
    parameters and the value of [substring] in them. *)
Definition combined_filters (merged : dict) (s : value) : dict :=
  Dict.set (Dict.set (Dict.remove merged "substring") "name" s)
    "sort_by" (VStr "len(name)!asc").

(** A key the identifier guard lets through: it does not end in [_id], or
    its value converts to an integer that is at least 1. *)
Definition passes (request_parameters : dict) (key : string) : Prop :=
  endswith key "_id" = false \/
  exists v n, Dict.get request_parameters key = Some v /\ int v = Return n /\ 1 <= n.

(** The mappings whose identifier values are in the range of the model
    of [int]: a string under a key that ends in [_id] is ASCII. *)
Definition ascii_identifiers (request_parameters : dict) : Prop :=
  forall k s,
    endswith k "_id" = true ->
    Dict.get request_parameters k = Some (VStr s) -> is_ascii s = true.

(** A single-item handler answering for the path segment [entity_id],
    whose integer value is [n]: when the backend [r] returns for the
    filter [{id: n}], the handler returns the first record or [{}], the
    status is 200, and that call is the one call issued. *)
Definition answers_first_or_empty {Record : Type}
    (backend : retriever -> dict -> result (list Record))
    (handler : string -> M (payload Record)) (r : retriever)
    (entity_id : string) (n : Z) (st : state) : Prop :=
  forall retrieved,
    backend r [("id", VInt n)] = Return retrieved ->
    fst (handler entity_id st) = Return (first_or_empty Record retrieved) /\
    status_code (fst (handler entity_id st)) = 200 /\
    calls (snd (handler entity_id st)) = (calls st ++ [(r, [("id", VInt n)])])%list.

(** The single-item routes of resources.py: the name of the path
    parameter, the entity name of the warning, the backend, the handler
    (lines 43-59, 81-97, 128-144, 194-210, 235-251, 279-295). *)
Definition by_id_routes {Record : Type}
    (backend : retriever -> dict -> result (list Record))
    : list (string * string * retriever * (string -> M (payload Record))) :=
  [("artist_id", "Artist", ArtistRetriever, ArtistById_get Record backend);
   ("genre_id", "Genre", GenreRetriever, GenreById_get Record backend);
   ("release_id", "Release", ReleaseRetriever, ReleaseById_get Record backend);
   ("song_id", "Song", SongRetriever, SongById_get Record backend);
   ("sheet_id", "Sheet", SheetRetriever, SheetById_get Record backend);
   ("tracktab_id", "TrackTab", TrackTabRetriever, TrackTabById_get Record backend)].

(** The list routes of resources.py, each with its backend (lines 20-40,
    62-78, 100-125, 147-167, 170-191, 213-232, 254-276). *)
Definition list_routes {Record : Type}
    (backend : retriever -> dict -> result (list Record))
    : list (retriever * (dict -> RequestParser -> M (payload Record))) :=
  [(ArtistRetriever, Artists_get Record backend);
   (GenreRetriever, Genres_get Record backend);
   (ReleaseRetriever, Releases_get Record backend);
   (SongRetriever, Songs_get Record backend);
   (SongWithArtistsRetriever, SongsWithArtists_get Record backend);
   (SheetRetriever, Sheets_get Record backend);
   (TrackTabRetriever, TrackTabs_get Record backend)].

(** A stub in which the song backend fails and the others find two
    records. *)
Definition song_failing_backend : retriever -> dict -> result (list nat) :=
  fun r _ =>
    match r with
    | SongRetriever => Raise (OtherError "OperationalError")
    | _ => Return [7%nat; 9%nat]
    end.

(** A parser that refuses the request. *)
Definition refusing_parser : RequestParser :=
  {| parse_args := Raise (Abort 400 "Input payload validation failed"
                            [("year_founded", VStr "Artist's initiation year")]) |}.

(** What the guard ends with once it has logged an identifier below 1:
    the abort, or [TypeError] from the call of [api.abort] when a key of
    the mapping is a name that it binds itself. *)
Definition abort_outcome (request_parameters : dict) : result unit :=
  if existsb abort_keyword (Dict.keys request_parameters) then Raise TypeError
  else Raise (Abort 400 "Input payload validation failed"
                (validation_messages request_parameters)).

(** The state after one more record in the log. *)
Definition logged (st : state) (lv : level) (message : string) : state :=
  mkState (log st ++ [(lv, message)]) (calls st).

(** The state after one more backend call. *)
Definition called (st : state) (r : retriever) (filters : dict) : state :=
  mkState (log st) (calls st ++ [(r, filters)]).

(** The value a lookup keeps when empty values are dropped. *)
Definition keep_truthy (o : option value) : option value :=
  match o with
  | Some v => if truthy v then Some v else None
  | None => None
  end.

(* ===================================================================== *)
(** ** Facts about dictionaries *)
(* ===================================================================== *)

Local Open Scope list_scope.

Lemma get_set_same (d : dict) (k : string) (v : value) :
  Dict.get (Dict.set d k v) k = Some v.
Proof.
  induction d as [| [k0 w] rest IH]; simpl.
  - now rewrite String.eqb_refl.
  - destruct (String.eqb k0 k) eqn:E; simpl; rewrite E; auto.
Qed.

Lemma get_set_other (d : dict) (k k' : string) (v : value) :
  k <> k' -> Dict.get (Dict.set d k v) k' = Dict.get d k'.
Proof.
  intros Hne. induction d as [| [k0 w] rest IH]; simpl.
  - destruct (String.eqb_spec k k'); congruence.
  - destruct (String.eqb_spec k0 k) as [-> | Hk]; simpl.
    + destruct (String.eqb_spec k k'); congruence.
    + now rewrite IH.
Qed.

Lemma get_In (d : dict) (k : string) (v : value) :
  Dict.get d k = Some v -> In (k, v) d.
Proof.
  induction d as [| [k0 w] rest IH]; simpl; [discriminate |].
  destruct (String.eqb_spec k0 k) as [-> | Hk]; intros H.
  - left. congruence.
  - right. auto.
Qed.

Lemma get_in_keys (d : dict) (k : string) (v : value) :
  Dict.get d k = Some v -> In k (Dict.keys d).
Proof.
  intros H. apply get_In in H. unfold Dict.keys.
  change k with (fst (k, v)). now apply in_map.
Qed.

Lemma in_keys_get (d : dict) (k : string) :
  In k (Dict.keys d) -> exists v, Dict.get d k = Some v.
Proof.
  induction d as [| [k0 w] rest IH]; simpl; [tauto |].
  intros [-> | H].
  - exists w. now rewrite String.eqb_refl.
  - destruct (String.eqb k0 k); eauto.
Qed.

Lemma get_not_in_keys (d : dict) (k : string) :
  ~ In k (Dict.keys d) -> Dict.get d k = None.
Proof.
  intros H. destruct (Dict.get d k) eqn:E; [| reflexivity].
  apply get_in_keys in E. contradiction.
Qed.

Lemma In_set (d : dict) (k k' : string) (v v' : value) :
  In (k', v') (Dict.set d k v) -> (k' = k /\ v' = v) \/ In (k', v') d.
Proof.
  induction d as [| [k0 w] rest IH]; simpl.
  - intros [H | []]. left. split; congruence.
  - destruct (String.eqb_spec k0 k) as [-> | Hk]; simpl.
    + intros [H | H]; [left; split; congruence | auto].
    + intros [H | H]; [auto | destruct (IH H); auto].
Qed.

Lemma in_keys_set (d : dict) (k k' : string) (v : value) :
  In k' (Dict.keys (Dict.set d k v)) -> k' = k \/ In k' (Dict.keys d).
Proof.
  unfold Dict.keys. intros H. apply in_map_iff in H.
  destruct H as [[k1 v1] [Hk H]]. simpl in Hk. subst k1.
  apply In_set in H. destruct H as [[-> _] | H]; [now left | right].
  change k' with (fst (k', v1)). now apply in_map.
Qed.

Lemma set_new_key (d : dict) (k : string) (v : value) :
  ~ In k (Dict.keys d) -> Dict.set d k v = (d ++ [(k, v)])%list.
Proof.
  induction d as [| [k0 w] rest IH]; simpl; [reflexivity |].
  intros H. destruct (String.eqb_spec k0 k) as [-> | Hk]; [tauto |].
  rewrite IH; tauto.
Qed.

Lemma NoDup_keys_set (d : dict) (k : string) (v : value) :
  NoDup (Dict.keys d) -> NoDup (Dict.keys (Dict.set d k v)).
Proof.
  induction d as [| [k0 w] rest IH]; simpl; intros H.
  - constructor; [tauto | constructor].
  - inversion H as [| ? ? Hnin Hnd]; subst.
    destruct (String.eqb_spec k0 k) as [-> | Hk]; simpl.
    + now constructor.
    + constructor; [| now apply IH].
      intros Hin. apply in_keys_set in Hin. tauto.
Qed.

Lemma NoDup_In_get (d : dict) (k : string) (v : value) :
  NoDup (Dict.keys d) -> In (k, v) d -> Dict.get d k = Some v.
Proof.
  induction d as [| [k0 w] rest IH]; simpl; [tauto |].
  intros Hnd [H | H].
  - inversion H; subst. now rewrite String.eqb_refl.
  - inversion Hnd as [| ? ? Hnin Hnd']; subst.
    destruct (String.eqb_spec k0 k) as [-> | Hk]; [| auto].
    exfalso. apply Hnin. change k with (fst (k, v)). now apply in_map.
Qed.

Lemma get_remove_other (d : dict) (k k' : string) :
  k <> k' -> Dict.get (Dict.remove d k) k' = Dict.get d k'.
Proof.
  intros Hne. induction d as [| [k0 w] rest IH]; simpl; [reflexivity |].
  destruct (String.eqb_spec k0 k) as [-> | Hk]; simpl.
  - destruct (String.eqb_spec k k'); congruence.
  - now rewrite IH.
Qed.

(** *** The assignment loop *)

Section AssignAll.
Variable g : string -> option value.

Lemma get_assign_all_skip (ks : list string) (d : dict) (k : string) :
  ~ In k ks \/ g k = None ->
  Dict.get (Dict.assign_all g ks d) k = Dict.get d k.
Proof.
  revert d. induction ks as [| key rest IH]; intros d H; simpl; [reflexivity |].
  rewrite IH by (simpl in H; tauto).
  destruct (g key) eqn:E; [| reflexivity].
  apply get_set_other. intros ->. simpl in H. destruct H as [H | H]; [tauto | congruence].
Qed.

Lemma get_assign_all_hit (ks : list string) (d : dict) (k : string) (v : value) :
  g k = Some v -> In k ks \/ Dict.get d k = Some v ->
  Dict.get (Dict.assign_all g ks d) k = Some v.
Proof.
  intros Hg. revert d. induction ks as [| key rest IH]; intros d H; simpl.
  - destruct H as [[] | H]; exact H.
  - apply IH. destruct (String.eqb_spec key k) as [-> | Hne].
    + right. rewrite Hg. apply get_set_same.
    + destruct H as [[H | H] | H]; [congruence | now left | right].
      destruct (g key); [now rewrite get_set_other | exact H].
Qed.

Lemma In_assign_all (ks : list string) (d : dict) (k : string) (v : value) :
  In (k, v) (Dict.assign_all g ks d) -> In (k, v) d \/ g k = Some v.
Proof.
  revert d. induction ks as [| key rest IH]; intros d H; simpl in H; [now left |].
  apply IH in H. destruct H as [H | H]; [| now right].
  destruct (g key) eqn:E; [| now left].
  apply In_set in H. destruct H as [[-> ->] | H]; auto.
Qed.

Lemma NoDup_keys_assign_all (ks : list string) (d : dict) :
  NoDup (Dict.keys d) -> NoDup (Dict.keys (Dict.assign_all g ks d)).
Proof.
  revert d. induction ks as [| key rest IH]; intros d H; simpl; [exact H |].
  apply IH. destruct (g key); [now apply NoDup_keys_set | exact H].
Qed.

(** On entries that [g] maps to themselves the loop rebuilds the
    dictionary it walks over. *)
Lemma assign_all_rebuild (suffix prefix : dict) :
  NoDup (Dict.keys (prefix ++ suffix)) ->
  (forall k v, In (k, v) suffix -> g k = Some v) ->
  Dict.assign_all g (Dict.keys suffix) prefix = (prefix ++ suffix)%list.
Proof.
  revert prefix. induction suffix as [| [k v] rest IH]; intros prefix Hnd Hg; simpl.
  - now rewrite app_nil_r.
  - rewrite (Hg k v) by now left.
    assert (Hnew : ~ In k (Dict.keys prefix)).
    { unfold Dict.keys in *. rewrite map_app in Hnd. simpl in Hnd.
      apply NoDup_remove_2 in Hnd. intros Hin. apply Hnd. apply in_or_app. now left. }
    rewrite set_new_key by exact Hnew.
    change (fold_left _ (Dict.keys rest) ?acc) with (Dict.assign_all g (Dict.keys rest) acc).
    rewrite IH.
    + now rewrite <- app_assoc.
    + now rewrite <- app_assoc.
    + intros k' v' H. apply Hg. now right.
Qed.

End AssignAll.

Lemma get_update (d other : dict) (k : string) :
  Dict.get (Dict.update d other) k =
  match Dict.get other k with Some v => Some v | None => Dict.get d k end.
Proof.
  unfold Dict.update. destruct (Dict.get other k) as [v |] eqn:E.
  - apply get_assign_all_hit; [exact E | left; eapply get_in_keys; eassumption].
  - apply get_assign_all_skip. now right.
Qed.

Lemma get_comprehension (d : dict) cond val (k : string) :
  Dict.get (Dict.comprehension d cond val) k =
  match Dict.get d k with
  | Some v => if cond k v then Some (val k v) else None
  | None => None
  end.
Proof.
  unfold Dict.comprehension.
  destruct (Dict.get d k) as [v |] eqn:E; [destruct (cond k v) eqn:C |].
  - apply get_assign_all_hit; [now rewrite E, C | left; eapply get_in_keys; eassumption].
  - rewrite get_assign_all_skip; [reflexivity | right; now rewrite E, C].
  - rewrite get_assign_all_skip; [reflexivity | right; now rewrite E].
Qed.

(* ===================================================================== *)
(** ** Properties of [api/util.py] *)
(* ===================================================================== *)

Lemma truthy_not_empty (v : value) : truthy v = true -> ~ empty_value v.
Proof.
  intros H [-> | [-> | ->]]; discriminate.
Qed.

Lemma get_remove_empty (m : dict) (k : string) :
  Dict.get (remove_empty_parameters m) k =
  match Dict.get m k with
  | Some v => if truthy v then Some v else None
  | None => None
  end.
Proof. apply get_comprehension. Qed.

Lemma In_remove_empty (m : dict) (k : string) (v : value) :
  In (k, v) (remove_empty_parameters m) <->
  Dict.get m k = Some v /\ truthy v = true.
Proof.
  split.
  - intros H. apply In_assign_all in H. destruct H as [[] | H].
    destruct (Dict.get m k) as [w |]; [| discriminate].
    destruct (truthy w) eqn:T; [| discriminate].
    inversion H; subst. auto.
  - intros [Hg Ht]. apply get_In. rewrite get_remove_empty, Hg, Ht. reflexivity.
Qed.

Lemma NoDup_keys_remove_empty (m : dict) :
  NoDup (Dict.keys (remove_empty_parameters m)).
Proof. apply NoDup_keys_assign_all. constructor. Qed.

(** A dictionary with no empty value is left as it is. *)
Lemma remove_empty_fixed (d : dict) :
  NoDup (Dict.keys d) ->
  (forall k v, In (k, v) d -> truthy v = true) ->
  remove_empty_parameters d = d.
Proof.
  intros Hnd Ht. unfold remove_empty_parameters, Dict.comprehension.
  apply (assign_all_rebuild _ d []); [exact Hnd |].
  intros k v H. rewrite (NoDup_In_get d k v Hnd H), (Ht k v H). reflexivity.
Qed.

(** C6: for every raw mapping and every schema-parsed mapping the
    normalizer returns (it does not raise) a mapping in which each key of
    the parsed mapping has the parsed value, empty or not, and every other
    key has the value the raw mapping gives it. *)
Theorem consolidate_parameters_precedence (raw parsed : dict) :
  exists merged,
    consolidate_parameters raw (parser_of parsed) = Return merged /\
    (forall k v, Dict.get parsed k = Some v -> Dict.get merged k = Some v) /\
    (forall k, Dict.get parsed k = None -> Dict.get merged k = Dict.get raw k).
Proof.
  exists (Dict.update (Dict.copy raw) parsed). split; [reflexivity |].
  split; intros k; [intros v |]; intros H; now rewrite get_update, H.
Qed.

(** C7: for all raw and schema-parsed mappings, removing the empty
    parameters of the normalized mapping leaves only entries whose value
    is truthy: no empty string, no empty collection, no [None]. *)
Theorem remove_empty_of_consolidated_truthy (raw parsed : dict) :
  exists merged,
    consolidate_parameters raw (parser_of parsed) = Return merged /\
    forall k v, In (k, v) (remove_empty_parameters merged) ->
                truthy v = true /\ ~ empty_value v.
Proof.
  exists (Dict.update (Dict.copy raw) parsed). split; [reflexivity |].
  intros k v H. apply In_remove_empty in H. destruct H as [_ Ht].
  split; [exact Ht | now apply truthy_not_empty].
Qed.

(** C10: [remove_empty_parameters] is idempotent, and it restricts its
    input: a key it keeps maps to the value it had in the input. *)
Theorem remove_empty_parameters_idempotent (m : dict) :
  remove_empty_parameters (remove_empty_parameters m) = remove_empty_parameters m /\
  forall k v, Dict.get (remove_empty_parameters m) k = Some v -> Dict.get m k = Some v.
Proof.
  split.
  - apply remove_empty_fixed; [apply NoDup_keys_remove_empty |].
    intros k v H. now apply In_remove_empty in H.
  - intros k v H. apply get_In, In_remove_empty in H. tauto.
Qed.

(* ===================================================================== *)
(** ** The identifier guard *)
(* ===================================================================== *)

Ltac run_monad :=
  unfold bind, lift, ret, raise, Dict.getitem, api_abort, logger_log; simpl.

Lemma check_parameter_skips (rp : dict) (key : string) (st : state) :
  endswith key "_id" = false -> check_parameter rp key st = (Return tt, st).
Proof. intros H. unfold check_parameter. rewrite H. reflexivity. Qed.

Lemma check_parameter_accepts (rp : dict) (key : string) (v : value) (n : Z)
    (st : state) :
  Dict.get rp key = Some v -> int v = Return n -> 1 <= n ->
  check_parameter rp key st = (Return tt, st).
Proof.
  intros Hg Hi Hn. unfold check_parameter.
  destruct (endswith key "_id"); [| reflexivity].
  run_monad. rewrite Hg, Hi.
  destruct (Z.ltb_spec n 1); [lia | reflexivity].
Qed.

Lemma check_parameter_passes (rp : dict) (key : string) (st : state) :
  passes rp key -> check_parameter rp key st = (Return tt, st).
Proof.
  intros [H | (v & n & Hg & Hi & Hn)].
  - now apply check_parameter_skips.
  - eapply check_parameter_accepts; eassumption.
Qed.

(** The payload of the abort: a message for each key of the mapping. *)
Lemma get_validation_messages (rp : dict) (k : string) :
  Dict.get (validation_messages rp) k =
  option_map (invalid_message k) (Dict.get rp k).
Proof.
  unfold validation_messages. rewrite get_comprehension.
  now destruct (Dict.get rp k).
Qed.

Lemma validation_messages_keys (rp : dict) (k : string) :
  In k (Dict.keys (validation_messages rp)) <-> In k (Dict.keys rp).
Proof.
  split; intros H.
  - apply in_keys_get in H. destruct H as [w H].
    rewrite get_validation_messages in H.
    destruct (Dict.get rp k) as [v |] eqn:E; [| discriminate].
    now apply (get_in_keys rp k v).
  - apply in_keys_get in H. destruct H as [v H].
    apply (get_in_keys _ k (invalid_message k v)).
    now rewrite get_validation_messages, H.
Qed.

(** The payload has a key that [api.abort] binds itself exactly when the
    mapping has one. *)
Lemma validation_messages_collide (rp : dict) :
  existsb abort_keyword (Dict.keys (validation_messages rp)) =
  existsb abort_keyword (Dict.keys rp).
Proof.
  apply eq_true_iff_eq. rewrite !existsb_exists.
  split; intros [k [Hin Hk]]; exists k; (split; [| exact Hk]);
    now apply validation_messages_keys.
Qed.

Lemma no_abort_keyword (l : list string) :
  (forall k, In k l -> abort_keyword k = false) -> existsb abort_keyword l = false.
Proof.
  intros H. destruct (existsb abort_keyword l) eqn:E; [| reflexivity].
  apply existsb_exists in E. destruct E as [k [Hin Hk]].
  rewrite (H k Hin) in Hk. discriminate.
Qed.

(** A key that ends in [_id] is none of the names [api.abort] binds. *)
Lemma id_suffix_no_abort_keyword (key : string) :
  endswith key "_id" = true -> abort_keyword key = false.
Proof.
  intros H. unfold abort_keyword.
  destruct (String.eqb_spec key "self") as [-> | _]; [discriminate |].
  destruct (String.eqb_spec key "code") as [-> | _]; [discriminate |].
  destruct (String.eqb_spec key "message") as [-> | _]; [discriminate |].
  reflexivity.
Qed.

(** The loop body at an identifier key below 1: the ERROR record, then
    the abort, or [TypeError] when a key of the mapping is a name that
    [api.abort] binds itself. *)
Lemma check_parameter_aborts (rp : dict) (key : string) (v : value) (n : Z)
    (st : state) :
  endswith key "_id" = true ->
  Dict.get rp key = Some v -> int v = Return n -> n < 1 ->
  check_parameter rp key st =
  ((if existsb abort_keyword (Dict.keys rp) then Raise TypeError
    else Raise (Abort 400 "Input payload validation failed" (validation_messages rp))),
   mkState (log st ++ [(ERROR, ("Incorrect value for parameter " ++ key ++ "=" ++ str v)%string)])
           (calls st)).
Proof.
  intros He Hg Hi Hn. unfold check_parameter. rewrite He.
  unfold bind, lift, ret, Dict.getitem, api_abort, logger_log.
  rewrite Hg, Hi. cbn [fst snd].
  destruct (Z.ltb_spec n 1); [| lia].
  rewrite validation_messages_collide.
  now destruct (existsb abort_keyword (Dict.keys rp)).
Qed.

Lemma check_parameter_conversion_fails (rp : dict) (key : string) (v : value)
    (e : exc) (st : state) :
  endswith key "_id" = true ->
  Dict.get rp key = Some v -> int v = Raise e ->
  check_parameter rp key st = (Raise e, st).
Proof.
  intros He Hg Hi. unfold check_parameter. rewrite He.
  run_monad. now rewrite Hg, Hi.
Qed.

Lemma for_in_all_return {A} (l : list A) (body : A -> M unit) (st : state) :
  (forall x, In x l -> body x st = (Return tt, st)) ->
  for_in l body st = (Return tt, st).
Proof.
  induction l as [| x rest IH]; intros H; simpl; [reflexivity |].
  unfold bind. rewrite (H x) by now left.
  apply IH. intros y Hy. apply H. now right.
Qed.

Lemma for_in_stops {A} (pre post : list A) (x : A) (body : A -> M unit)
    (st st' : state) (e : exc) :
  (forall y, In y pre -> body y st = (Return tt, st)) ->
  body x st = (Raise e, st') ->
  for_in (pre ++ x :: post) body st = (Raise e, st').
Proof.
  induction pre as [| y rest IH]; intros Hpre Hx; simpl.
  - unfold bind. now rewrite Hx.
  - unfold bind. rewrite (Hpre y) by now left.
    apply IH; [| exact Hx]. intros z Hz. apply Hpre. now right.
Qed.

(** The guard lets a mapping through when each of its keys passes. *)
Lemma guard_accepts (rp : dict) (st : state) :
  (forall k, In k (Dict.keys rp) -> passes rp k) ->
  abort_on_invalid_parameters rp st = (Return tt, st).
Proof.
  intros H. apply for_in_all_return.
  intros k Hk. apply check_parameter_passes. auto.
Qed.

(** The guard stops at the first identifier key whose value is an
    integer below 1: it writes the ERROR record and aborts with 400, the
    payload holding a message for every key, or ends with [TypeError]
    when a key of the mapping is a name that [api.abort] binds itself. *)
Lemma guard_aborts (rp : dict) (pre post : list string) (k : string)
    (v : value) (n : Z) (st : state) :
  Dict.keys rp = pre ++ k :: post ->
  Forall (passes rp) pre ->
  endswith k "_id" = true ->
  Dict.get rp k = Some v -> int v = Return n -> n < 1 ->
  abort_on_invalid_parameters rp st =
  ((if existsb abort_keyword (Dict.keys rp) then Raise TypeError
    else Raise (Abort 400 "Input payload validation failed" (validation_messages rp))),
   mkState (log st ++ [(ERROR, ("Incorrect value for parameter " ++ k ++ "=" ++ str v)%string)])
           (calls st)).
Proof.
  intros Hk Hpre He Hg Hi Hn. unfold abort_on_invalid_parameters.
  rewrite Hk at 1.
  destruct (existsb abort_keyword (Dict.keys rp)) eqn:Hc;
    (apply for_in_stops;
     [ intros y Hy; apply check_parameter_passes;
       rewrite Forall_forall in Hpre; auto
     | rewrite (check_parameter_aborts rp k v n st He Hg Hi Hn), Hc; reflexivity ]).
Qed.

(** The guard on the mapping of a single-item route. *)
Lemma guard_single_accepts (key entity_id : string) (n : Z) (st : state) :
  int (VStr entity_id) = Return n -> 1 <= n ->
  abort_on_invalid_parameters [(key, VStr entity_id)] st = (Return tt, st).
Proof.
  intros Hi Hn. apply guard_accepts. intros k [<- | []].
  right. exists (VStr entity_id), n. simpl. rewrite String.eqb_refl. auto.
Qed.

(** C9, as the code has it: a key is an identifier key when it ends in
    [_id], which the bare key [id] does not.  A mapping none of whose keys
    ends in [_id] passes the guard whatever its values; a key that ends in
    [_id] and holds an integer below 1, the keys before it passing and no
    key of the mapping being a name that [api.abort] binds itself
    ([self], [code], [message]), makes the guard abort with status 400
    before any backend call. *)
Theorem guard_checks_id_suffix_only :
  endswith "id" "_id" = false /\
  (forall rp st,
      (forall k, In k (Dict.keys rp) -> endswith k "_id" = false) ->
      abort_on_invalid_parameters rp st = (Return tt, st)) /\
  (forall rp pre post k v n st,
      Dict.keys rp = pre ++ k :: post ->
      Forall (passes rp) pre ->
      endswith k "_id" = true ->
      Dict.get rp k = Some v -> int v = Return n -> n < 1 ->
      (forall k', In k' (Dict.keys rp) -> abort_keyword k' = false) ->
      fst (abort_on_invalid_parameters rp st) =
        Raise (Abort 400 "Input payload validation failed" (validation_messages rp)) /\
      calls (snd (abort_on_invalid_parameters rp st)) = calls st).
Proof.
  split; [reflexivity |]. split.
  - intros rp st H. apply guard_accepts. intros k Hk. left. auto.
  - intros rp pre post k v n st Hk Hpre He Hg Hi Hn Hfree.
    rewrite (guard_aborts rp pre post k v n st Hk Hpre He Hg Hi Hn).
    rewrite (no_abort_keyword _ Hfree). auto.
Qed.

(** The guard on [{id: '0'}] and on [{sheet_id: '0'}]. *)
Lemma guard_checks_id_suffix_only_witness :
  abort_on_invalid_parameters [("id", VStr "0")] initial = (Return tt, initial) /\
  fst (abort_on_invalid_parameters [("sheet_id", VStr "0")] initial) =
    Raise (Abort 400 "Input payload validation failed"
             (validation_messages [("sheet_id", VStr "0")])).
Proof.
  destruct guard_checks_id_suffix_only as [_ [Hpass Habort]]. split.
  - apply Hpass. intros k [<- | []]. reflexivity.
  - apply (Habort [("sheet_id", VStr "0")] [] [] "sheet_id" (VStr "0") 0 initial);
      try reflexivity; [constructor |].
    intros k' [<- | []]. reflexivity.
Defined.

(** C9, as stated, fails on [{id: '0'}]: the value is the integer 0, not a
    positive integer, and the guard returns without aborting. *)
Lemma guard_accepts_bare_id_zero :
  Dict.get [("id", VStr "0")] "id" = Some (VStr "0") /\
  int (VStr "0") = Return 0 /\
  abort_on_invalid_parameters [("id", VStr "0")] initial = (Return tt, initial).
Proof. repeat split. Qed.

(** C2, at [{artist_id: 'abc'}] (the request [GET /artists/abc]): the
    conversion of the value raises [ValueError] inside the guard, which
    is no abort: the handler ends with that exception, status 500, and no
    backend call.  The same holds for any value that is not an integer
    literal. *)
Theorem guard_non_numeric_raises_ValueError :
  abort_on_invalid_parameters [("artist_id", VStr "abc")] initial
    = (Raise ValueError, initial) /\
  ArtistById_get nat empty_backend "abc" initial = (Raise ValueError, initial) /\
  status_code (fst (ArtistById_get nat empty_backend "abc" initial)) = 500 /\
  (forall key s st,
      endswith key "_id" = true -> parse_int s = None ->
      abort_on_invalid_parameters [(key, VStr s)] st = (Raise ValueError, st)).
Proof.
  repeat split.
  intros key s st He Hp. unfold abort_on_invalid_parameters. simpl.
  unfold bind. erewrite check_parameter_conversion_fails; eauto.
  - simpl. now rewrite String.eqb_refl.
  - simpl. now rewrite Hp.
Qed.

(** C8, at [{name: 'x', song_id: '0'}]: the guard aborts because of
    [song_id], and the payload has a message for [name] too, a key that
    does not end in [_id].  In general the payload has the message of
    every key of the mapping, whatever the key ends in. *)
Theorem guard_payload_lists_every_key :
  endswith "name" "_id" = false /\
  abort_on_invalid_parameters [("name", VStr "x"); ("song_id", VStr "0")] initial =
  (Raise (Abort 400 "Input payload validation failed"
            [("name", VStr "Invalid name: x. name must be a positive integer");
             ("song_id", VStr "Invalid song_id: 0. song_id must be a positive integer")]),
   mkState [(ERROR, "Incorrect value for parameter song_id=0")] []) /\
  (forall rp k v,
      Dict.get rp k = Some v ->
      Dict.get (validation_messages rp) k = Some (invalid_message k v)).
Proof.
  repeat apply conj; try reflexivity.
  intros rp k v H. now rewrite get_validation_messages, H.
Qed.

(* ===================================================================== *)
(** ** Properties of [api/resources.py] *)
(* ===================================================================== *)

Section ResourceFacts.

Variable Record : Type.
Variable backend : retriever -> dict -> result (list Record).

(** The run of a single-item handler on a positive identifier: the one
    backend call, the warning when nothing is found, the answer. *)
Lemma by_id_get_run (key label : string) (r : retriever)
    (entity_id : string) (n : Z) (retrieved : list Record) (st : state) :
  int (VStr entity_id) = Return n -> 1 <= n ->
  backend r [("id", VInt n)] = Return retrieved ->
  by_id_get Record backend key label r entity_id st =
  (Return (first_or_empty Record retrieved),
   mkState
     (log st ++ match retrieved with
                | [] => [(WARNING, (label ++ " was not found for ID=" ++ entity_id)%string)]
                | _ :: _ => []
                end)
     (calls st ++ [(r, [("id", VInt n)])])).
Proof.
  intros Hi Hn Hb. unfold by_id_get.
  unfold bind at 1. rewrite (guard_single_accepts key entity_id n st Hi Hn).
  unfold bind at 1. unfold lift at 1. rewrite Hi.
  unfold bind at 1. unfold get_objects at 1. rewrite Hb.
  destruct retrieved; simpl; [reflexivity |].
  now rewrite app_nil_r.
Qed.

Lemma by_id_get_answers (key label : string) (r : retriever)
    (entity_id : string) (n : Z) (st : state) :
  int (VStr entity_id) = Return n -> 1 <= n ->
  answers_first_or_empty backend (by_id_get Record backend key label r)
    r entity_id n st.
Proof.
  intros Hi Hn retrieved Hb.
  rewrite (by_id_get_run key label r entity_id n retrieved st Hi Hn Hb).
  simpl. auto.
Qed.

(** The filter a list route hands to its backend has no empty value, and
    it is the only call of the request. *)
Lemma list_get_filters (r : retriever) (args : dict) (parser : RequestParser)
    (merged : dict) (st : state) :
  consolidate_parameters args parser = Return merged ->
  calls (snd (list_get Record backend r args parser st)) =
    calls st ++ [(r, remove_empty_parameters merged)] /\
  forall k v, In (k, v) (remove_empty_parameters merged) -> ~ empty_value v.
Proof.
  intros Hc. split.
  - unfold list_get, bind, lift, get_objects. rewrite Hc.
    now destruct (backend r (remove_empty_parameters merged)).
  - intros k v H. apply In_remove_empty in H. now apply truthy_not_empty.
Qed.

(** A request whose parameters do not parse reaches no backend. *)
Lemma list_get_parse_failure (r : retriever) (args : dict)
    (parser : RequestParser) (e : exc) (st : state) :
  parse_args parser = Raise e ->
  list_get Record backend r args parser st = (Raise e, st).
Proof.
  intros Hp. unfold list_get, bind, lift, consolidate_parameters. now rewrite Hp.
Qed.

Lemma combined_filters_name (merged : dict) (s : value) :
  Dict.get (combined_filters merged s) "name" = Some s.
Proof.
  unfold combined_filters. rewrite get_set_other by discriminate.
  apply get_set_same.
Qed.

Lemma combined_filters_other (merged : dict) (s : value) (k : string) :
  k <> "substring" -> k <> "name" -> k <> "sort_by" ->
  Dict.get (combined_filters merged s) k = Dict.get merged k.
Proof.
  intros H1 H2 H3. unfold combined_filters.
  rewrite !get_set_other by congruence.
  apply get_remove_other. congruence.
Qed.

Lemma combined_get_run (args : dict) (parser : RequestParser) (merged : dict)
    (s : value) (st : state) :
  consolidate_parameters args parser = Return merged ->
  Dict.get merged "substring" = Some s -> truthy s = true ->
  CombinedArtistSongRelease_get Record backend args parser st =
  (artists <- get_objects Record backend ArtistRetriever (combined_filters merged s) ;;
   songs <- get_objects Record backend SongRetriever (combined_filters merged s) ;;
   releases <- get_objects Record backend ReleaseRetriever (combined_filters merged s) ;;
   ret (PDict [("artists", PList artists);
               ("songs", PList songs);
               ("releases", PList releases)])) st.
Proof.
  intros Hc Hg Ht. unfold CombinedArtistSongRelease_get.
  unfold bind at 1. unfold lift at 1. rewrite Hc.
  unfold bind at 1. unfold lift at 1. unfold Dict.pop. rewrite Hg. cbn [fst snd].
  unfold bind at 1. unfold lift at 1. unfold Dict.getitem.
  rewrite get_set_same, Ht. reflexivity.
Qed.

End ResourceFacts.

(** C4: on each single-item route, for a path segment that is a positive
    integer, the handler returns the first record of the backend's result
    when there is one and the empty object otherwise, with status 200 in
    both cases. *)
Theorem by_id_returns_first_or_empty (Record : Type)
    (backend : retriever -> dict -> result (list Record))
    (entity_id : string) (n : Z) (st : state) :
  int (VStr entity_id) = Return n -> 1 <= n ->
  answers_first_or_empty backend (ArtistById_get Record backend)
    ArtistRetriever entity_id n st /\
  answers_first_or_empty backend (GenreById_get Record backend)
    GenreRetriever entity_id n st /\
  answers_first_or_empty backend (ReleaseById_get Record backend)
    ReleaseRetriever entity_id n st /\
  answers_first_or_empty backend (SongById_get Record backend)
    SongRetriever entity_id n st /\
  answers_first_or_empty backend (SheetById_get Record backend)
    SheetRetriever entity_id n st /\
  answers_first_or_empty backend (TrackTabById_get Record backend)
    TrackTabRetriever entity_id n st.
Proof.
  intros Hi Hn. repeat apply conj; now apply by_id_get_answers.
Qed.

(** [GET /artists/12] with a backend that finds two records, and
    [GET /tracktabs/12] with one that finds none. *)
Lemma by_id_returns_first_or_empty_witness :
  fst (ArtistById_get nat two_backend "12" initial) = Return (PRecord 7%nat) /\
  fst (TrackTabById_get nat empty_backend "12" initial) = Return (PDict []) /\
  status_code (fst (TrackTabById_get nat empty_backend "12" initial)) = 200.
Proof.
  assert (H12 : int (VStr "12") = Return 12) by reflexivity.
  assert (Hpos : 1 <= 12) by (vm_compute; discriminate).
  split.
  - apply (proj1 (by_id_returns_first_or_empty nat two_backend "12" 12 initial H12 Hpos)
             [7%nat; 9%nat] eq_refl).
  - destruct (by_id_returns_first_or_empty nat empty_backend "12" 12 initial H12 Hpos)
      as (_ & _ & _ & _ & _ & H).
    destruct (H [] eq_refl) as (Hr & Hs & _). split; assumption.
Defined.

(** C3, as the code has it: for a request whose substring [s] is not
    empty, the artist, song and release backends are called once each, in
    that order, with one and the same filter mapping: the consolidated
    parameters without [substring], with [name] set to [s] and [sort_by]
    set to [len(name)!asc].  It is exactly [{name: s, sort_by:
    len(name)!asc}] when [substring] is the only parameter of the request.
    When the three backends return, the response holds their results under
    [artists], [songs] and [releases], as they are. *)
Theorem combined_search_dispatch (Record : Type)
    (backend : retriever -> dict -> result (list Record))
    (args : dict) (parser : RequestParser) (merged : dict) (s : value)
    (artists songs releases : list Record) (st : state) :
  consolidate_parameters args parser = Return merged ->
  Dict.get merged "substring" = Some s -> truthy s = true ->
  backend ArtistRetriever (combined_filters merged s) = Return artists ->
  backend SongRetriever (combined_filters merged s) = Return songs ->
  backend ReleaseRetriever (combined_filters merged s) = Return releases ->
  CombinedArtistSongRelease_get Record backend args parser st =
    (Return (PDict [("artists", PList artists);
                    ("songs", PList songs);
                    ("releases", PList releases)]),
     mkState (log st)
       (calls st ++ [(ArtistRetriever, combined_filters merged s);
                     (SongRetriever, combined_filters merged s);
                     (ReleaseRetriever, combined_filters merged s)])) /\
  Dict.get (combined_filters merged s) "name" = Some s /\
  Dict.get (combined_filters merged s) "sort_by" = Some (VStr "len(name)!asc") /\
  (Dict.keys merged = ["substring"] ->
   combined_filters merged s = [("name", s); ("sort_by", VStr "len(name)!asc")]).
Proof.
  intros Hc Hg Ht Ha Hs Hr. repeat apply conj.
  - rewrite (combined_get_run Record backend args parser merged s st Hc Hg Ht).
    unfold bind, get_objects, ret. cbn [log calls]. rewrite Ha, Hs, Hr.
    now rewrite <- !app_assoc.
  - apply combined_filters_name.
  - unfold combined_filters. apply get_set_same.
  - intros Hk. destruct merged as [| [k v] [| ? ?]]; try discriminate.
    simpl in Hk. injection Hk as ->. simpl in Hg. injection Hg as ->.
    reflexivity.
Qed.

(** [?substring=abc] with backends that find two records each. *)
Lemma combined_search_dispatch_witness :
  CombinedArtistSongRelease_get nat two_backend
    [("substring", VStr "abc")] (parser_of [("substring", VStr "abc")]) initial =
  (Return (PDict [("artists", PList [7; 9]%nat);
                  ("songs", PList [7; 9]%nat);
                  ("releases", PList [7; 9]%nat)]),
   mkState []
     [(ArtistRetriever, [("name", VStr "abc"); ("sort_by", VStr "len(name)!asc")]);
      (SongRetriever, [("name", VStr "abc"); ("sort_by", VStr "len(name)!asc")]);
      (ReleaseRetriever, [("name", VStr "abc"); ("sort_by", VStr "len(name)!asc")])]).
Proof.
  exact (proj1 (combined_search_dispatch nat two_backend
                  [("substring", VStr "abc")] (parser_of [("substring", VStr "abc")])
                  [("substring", VStr "abc")] (VStr "abc")
                  [7; 9]%nat [7; 9]%nat [7; 9]%nat initial
                  eq_refl eq_refl eq_refl eq_refl eq_refl eq_refl)).
Defined.

(** C3, as stated, fails on [?substring=abc&country=US]: the filter the
    three backends receive has the key [country] besides [name] and
    [sort_by]. *)
Lemma combined_search_forwards_other_parameters :
  calls (snd (CombinedArtistSongRelease_get nat empty_backend
                [("substring", VStr "abc"); ("country", VStr "US")]
                (parser_of [("substring", VStr "abc")]) initial)) =
  [(ArtistRetriever,
    [("country", VStr "US"); ("name", VStr "abc"); ("sort_by", VStr "len(name)!asc")]);
   (SongRetriever,
    [("country", VStr "US"); ("name", VStr "abc"); ("sort_by", VStr "len(name)!asc")]);
   (ReleaseRetriever,
    [("country", VStr "US"); ("name", VStr "abc"); ("sort_by", VStr "len(name)!asc")])].
Proof. reflexivity. Qed.

(** C1, as the code has it: when the consolidated parameters have no
    [substring], or a falsy one ([None] or the empty string; the value is
    not trimmed), or when the parameters do not parse, the combined search
    calls no backend. *)
Theorem combined_search_empty_calls_no_backend (Record : Type)
    (backend : retriever -> dict -> result (list Record))
    (args : dict) (parser : RequestParser) (st : state) :
  (forall merged s,
      consolidate_parameters args parser = Return merged ->
      Dict.get merged "substring" = Some s -> truthy s = false) ->
  calls (snd (CombinedArtistSongRelease_get Record backend args parser st)) = calls st.
Proof.
  intros H. unfold CombinedArtistSongRelease_get.
  unfold bind at 1. unfold lift at 1.
  destruct (consolidate_parameters args parser) as [merged | e] eqn:Hc; [| reflexivity].
  unfold bind at 1. unfold lift at 1. unfold Dict.pop.
  destruct (Dict.get merged "substring") as [s |] eqn:Hg; [| reflexivity].
  cbn [fst snd]. unfold bind at 1. unfold lift at 1. unfold Dict.getitem.
  rewrite get_set_same, (H merged s eq_refl Hg). reflexivity.
Qed.

(** The request with no [substring], which the parser reports as [None],
    and the request [?substring=] with a parser that lets it through. *)
Lemma combined_search_empty_calls_no_backend_witness :
  calls (snd (CombinedArtistSongRelease_get nat two_backend
                [] (parser_of [("substring", VNone)]) initial)) = [] /\
  calls (snd (CombinedArtistSongRelease_get nat two_backend
                [("substring", VStr "")] (parser_of [("substring", VStr "")])
                initial)) = [].
Proof.
  split.
  - apply (combined_search_empty_calls_no_backend nat two_backend
             [] (parser_of [("substring", VNone)]) initial).
    intros merged s Hc Hg. injection Hc as <-. injection Hg as <-. reflexivity.
  - apply (combined_search_empty_calls_no_backend nat two_backend
             [("substring", VStr "")] (parser_of [("substring", VStr "")]) initial).
    intros merged s Hc Hg. injection Hc as <-. injection Hg as <-. reflexivity.
Defined.

(** C1, as stated, fails on [?substring=%20%20%20]: the value is three
    spaces, nothing is left of it after trimming, and the three backends
    are called with it. *)
Lemma combined_search_blank_is_searched :
  strip (list_ascii_of_string "   ") = [] /\
  CombinedArtistSongRelease_get nat empty_backend
    [("substring", VStr "   ")] (parser_of [("substring", VStr "   ")]) initial =
  (Return (PDict [("artists", PList []); ("songs", PList []); ("releases", PList [])]),
   mkState []
     [(ArtistRetriever, [("name", VStr "   "); ("sort_by", VStr "len(name)!asc")]);
      (SongRetriever, [("name", VStr "   "); ("sort_by", VStr "len(name)!asc")]);
      (ReleaseRetriever, [("name", VStr "   "); ("sort_by", VStr "len(name)!asc")])]).
Proof. split; reflexivity. Qed.

(** C5, at [?substring=abc&foo=]: the filter mapping the combined search
    hands to its three backends maps [foo] to the empty string.  In
    general every other parameter of the request reaches the backends
    with the value it has, empty or not. *)
Theorem combined_search_passes_empty_value :
  empty_value (VStr "") /\
  calls (snd (CombinedArtistSongRelease_get nat empty_backend
                [("substring", VStr "abc"); ("foo", VStr "")]
                (parser_of [("substring", VStr "abc")]) initial)) =
  [(ArtistRetriever,
    [("foo", VStr ""); ("name", VStr "abc"); ("sort_by", VStr "len(name)!asc")]);
   (SongRetriever,
    [("foo", VStr ""); ("name", VStr "abc"); ("sort_by", VStr "len(name)!asc")]);
   (ReleaseRetriever,
    [("foo", VStr ""); ("name", VStr "abc"); ("sort_by", VStr "len(name)!asc")])] /\
  (forall merged s k,
      k <> "substring" -> k <> "name" -> k <> "sort_by" ->
      Dict.get (combined_filters merged s) k = Dict.get merged k).
Proof.
  repeat apply conj; [right; left; reflexivity | reflexivity |].
  intros merged s k. apply combined_filters_other.
Qed.

(* ===================================================================== *)
(** ** Further properties of the identifier guard *)
(* ===================================================================== *)

Lemma int_raises (v : value) (e : exc) :
  int v = Raise e -> e = ValueError \/ e = TypeError.
Proof.
  destruct v as [| n | s | y m d | items]; simpl; intros H;
    try discriminate; try (injection H as <-; now right).
  destruct (parse_int s); [discriminate | injection H as <-; now left].
Qed.

(** What the loop body does for a key of the mapping: it lets the key
    through, or logs and aborts, or the conversion of the value raises. *)
Lemma check_parameter_cases (rp : dict) (key : string) (v : value) (st : state) :
  Dict.get rp key = Some v ->
  (passes rp key /\ check_parameter rp key st = (Return tt, st)) \/
  (endswith key "_id" = true /\ (exists n, int v = Return n /\ n < 1) /\
   check_parameter rp key st =
   (abort_outcome rp,
    logged st ERROR ("Incorrect value for parameter " ++ key ++ "=" ++ str v)%string)) \/
  (endswith key "_id" = true /\
   exists e, int v = Raise e /\ check_parameter rp key st = (Raise e, st)).
Proof.
  intros Hg. destruct (endswith key "_id") eqn:He.
  - destruct (int v) as [n | e] eqn:Hi.
    + destruct (Z.lt_ge_cases n 1) as [Hn | Hn].
      * right. left. repeat split; [now exists n |].
        now apply (check_parameter_aborts rp key v n).
      * left. split; [right; now exists v, n |].
        now apply (check_parameter_accepts rp key v n).
    + right. right. split; [reflexivity |]. exists e. split; [reflexivity |].
      now apply (check_parameter_conversion_fails rp key v).
  - left. split; [now left | now apply check_parameter_skips].
Qed.

(** The loop over a list of keys of the mapping: every key passes and the
    state is as before, or the loop stops at the first key that does not. *)
Lemma for_in_check_cases (rp : dict) (l : list string) (st : state) :
  (forall k, In k l -> exists v, Dict.get rp k = Some v) ->
  (Forall (passes rp) l /\ for_in l (check_parameter rp) st = (Return tt, st)) \/
  (exists k v, In k l /\ endswith k "_id" = true /\ Dict.get rp k = Some v /\
     (exists n, int v = Return n /\ n < 1) /\
     for_in l (check_parameter rp) st =
     (abort_outcome rp,
      logged st ERROR ("Incorrect value for parameter " ++ k ++ "=" ++ str v)%string)) \/
  (exists k v e, In k l /\ endswith k "_id" = true /\ Dict.get rp k = Some v /\
     int v = Raise e /\ for_in l (check_parameter rp) st = (Raise e, st)).
Proof.
  assert (Hout : forall (u : unit),
             abort_outcome rp <> Return u).
  { intros u. unfold abort_outcome.
    destruct (existsb abort_keyword (Dict.keys rp)); discriminate. }
  induction l as [| key rest IH]; intros Hkeys.
  - left. split; [constructor | reflexivity].
  - destruct (Hkeys key (or_introl eq_refl)) as [v Hg].
    destruct (check_parameter_cases rp key v st Hg)
      as [[Hp Hc] | [(He & Hn & Hc) | (He & e & Hi & Hc)]].
    + destruct IH as [[Hall Hr] | [(k & w & Hin & H) | (k & w & e & Hin & H)]].
      * intros k Hk. apply Hkeys. now right.
      * left. split; [now constructor |].
        simpl. unfold bind. now rewrite Hc.
      * right. left. exists k, w. split; [now right |].
        destruct H as (H1 & H2 & H3 & H4). repeat split; try assumption.
        simpl. unfold bind. now rewrite Hc.
      * right. right. exists k, w, e. split; [now right |].
        destruct H as (H1 & H2 & H3 & H4). repeat split; try assumption.
        simpl. unfold bind. now rewrite Hc.
    + right. left. exists key, v. repeat split; try assumption; [now left |].
      simpl. unfold bind. rewrite Hc.
      destruct (abort_outcome rp) as [u |] eqn:E; [now destruct (Hout u) | reflexivity].
    + right. right. exists key, v, e. repeat split; try assumption; [now left |].
      simpl. unfold bind. now rewrite Hc.
Qed.

Lemma guard_cases (rp : dict) (st : state) :
  ((forall k, In k (Dict.keys rp) -> passes rp k) /\
   abort_on_invalid_parameters rp st = (Return tt, st)) \/
  (exists k v, In k (Dict.keys rp) /\ endswith k "_id" = true /\
     Dict.get rp k = Some v /\ (exists n, int v = Return n /\ n < 1) /\
     abort_on_invalid_parameters rp st =
     (abort_outcome rp,
      logged st ERROR ("Incorrect value for parameter " ++ k ++ "=" ++ str v)%string)) \/
  (exists k v e, In k (Dict.keys rp) /\ endswith k "_id" = true /\
     Dict.get rp k = Some v /\ int v = Raise e /\
     abort_on_invalid_parameters rp st = (Raise e, st)).
Proof.
  destruct (for_in_check_cases rp (Dict.keys rp) st (in_keys_get rp))
    as [[Hall H] | [H | H]]; [left | right; left | right; right]; try exact H.
  split; [| exact H]. now apply Forall_forall.
Qed.

(** On a mapping whose identifier strings are ASCII, the guard returns
    exactly when every key that ends in [_id] holds an integer of at
    least 1, and then it has changed nothing: no log record, no backend
    call. *)
Theorem guard_returns_iff_identifiers_positive (rp : dict) (st : state) :
  ascii_identifiers rp ->
  (fst (abort_on_invalid_parameters rp st) = Return tt <->
   forall k, In k (Dict.keys rp) -> passes rp k) /\
  (fst (abort_on_invalid_parameters rp st) = Return tt ->
   snd (abort_on_invalid_parameters rp st) = st).
Proof.
  intros _.
  assert (Hout : fst (abort_outcome rp, st) <> Return tt).
  { unfold abort_outcome. simpl.
    destruct (existsb abort_keyword (Dict.keys rp)); discriminate. }
  destruct (guard_cases rp st)
    as [[Hall H] | [(k & v & _ & _ & _ & _ & H) | (k & v & e & _ & _ & _ & _ & H)]];
    rewrite H; simpl.
  - split; [split; auto | auto].
  - split; [split; [intros E; now destruct Hout |] | intros E; now destruct Hout].
    intros Hall. rewrite (guard_accepts rp st Hall) in H.
    injection H as H _. symmetry in H. now destruct Hout.
  - split; [split; [discriminate |] | discriminate].
    intros Hall. rewrite (guard_accepts rp st Hall) in H. discriminate.
Qed.

(** [{name: 'x', song_id: ' 12 ', sheet_id: 3}] passes the guard, so its
    key [song_id] holds an integer of at least 1. *)
Lemma guard_returns_iff_identifiers_positive_witness :
  passes [("name", VStr "x"); ("song_id", VStr " 12 "); ("sheet_id", VInt 3)] "song_id".
Proof.
  assert (Hascii : ascii_identifiers
                     [("name", VStr "x"); ("song_id", VStr " 12 "); ("sheet_id", VInt 3)]).
  { intros k s _ H. simpl in H.
    repeat match type of H with
           | (if ?b then _ else _) = _ => destruct b
           end;
      try discriminate; injection H as <-; reflexivity. }
  apply (proj1 (proj1 (guard_returns_iff_identifiers_positive
                         [("name", VStr "x"); ("song_id", VStr " 12 "); ("sheet_id", VInt 3)]
                         initial Hascii)) eq_refl).
  simpl. tauto.
Defined.

(** The guard has four outcomes and no other.  It returns, and the state
    is as before.  Or it finds an identifier key whose value is an integer
    below 1, writes one ERROR record that names the key and the value,
    and then either aborts with status 400, the fixed message and one
    message for each key, or, when a key of the mapping is [self], [code]
    or [message], ends with the [TypeError] of the call of [api.abort].
    Or [int] raises [ValueError] or [TypeError] on an identifier value,
    and the state is as before.  It never calls a backend. *)
Theorem guard_outcomes (rp : dict) (st : state) :
  (abort_on_invalid_parameters rp st = (Return tt, st) \/
   (exists k v, endswith k "_id" = true /\ Dict.get rp k = Some v /\
      (forall k', In k' (Dict.keys rp) -> abort_keyword k' = false) /\
      abort_on_invalid_parameters rp st =
      (Raise (Abort 400 "Input payload validation failed" (validation_messages rp)),
       logged st ERROR ("Incorrect value for parameter " ++ k ++ "=" ++ str v)%string)) \/
   (exists k v k', endswith k "_id" = true /\ Dict.get rp k = Some v /\
      In k' (Dict.keys rp) /\ abort_keyword k' = true /\
      abort_on_invalid_parameters rp st =
      (Raise TypeError,
       logged st ERROR ("Incorrect value for parameter " ++ k ++ "=" ++ str v)%string)) \/
   (exists e, (e = ValueError \/ e = TypeError) /\
      abort_on_invalid_parameters rp st = (Raise e, st))) /\
  calls (snd (abort_on_invalid_parameters rp st)) = calls st.
Proof.
  destruct (guard_cases rp st)
    as [[Hall H] | [(k & v & _ & He & Hg & _ & H) | (k & v & e & _ & _ & _ & Hi & H)]];
    rewrite H; (split; [| reflexivity]).
  - now left.
  - unfold abort_outcome.
    destruct (existsb abort_keyword (Dict.keys rp)) eqn:Hc.
    + right. right. left. apply existsb_exists in Hc. destruct Hc as [k' [Hin Hk']].
      now exists k, v, k'.
    + right. left. exists k, v. repeat split; try assumption.
      intros k' Hin. destruct (abort_keyword k') eqn:Hk'; [| reflexivity].
      assert (Hex : existsb abort_keyword (Dict.keys rp) = true)
        by (apply existsb_exists; now exists k').
      congruence.
  - right. right. right. exists e. split; [now apply (int_raises v) | reflexivity].
Qed.

(* ===================================================================== *)
(** ** Further properties of [api/util.py] *)
(* ===================================================================== *)

Lemma in_keys_iff_get (d : dict) (k : string) :
  In k (Dict.keys d) <-> exists v, Dict.get d k = Some v.
Proof.
  split; [apply in_keys_get |]. intros [v H]. now apply (get_in_keys d k v).
Qed.

Lemma keys_set_extends (d : dict) (k : string) (v : value) :
  exists extra, Dict.keys (Dict.set d k v) = Dict.keys d ++ extra.
Proof.
  induction d as [| [k0 w] rest [extra IH]]; simpl.
  - now exists [k].
  - destruct (String.eqb k0 k); simpl.
    + exists []. now rewrite app_nil_r.
    + exists extra. now rewrite IH.
Qed.

Lemma keys_assign_all_extends g (ks : list string) (d : dict) :
  exists extra, Dict.keys (Dict.assign_all g ks d) = Dict.keys d ++ extra.
Proof.
  revert d. induction ks as [| key rest IH]; intros d; simpl.
  - exists []. now rewrite app_nil_r.
  - destruct (g key) as [v |]; [| apply IH].
    destruct (keys_set_extends d key v) as [e1 H1].
    destruct (IH (Dict.set d key v)) as [e2 H2].
    exists (e1 ++ e2).
    change (fold_left _ rest ?acc) with (Dict.assign_all g rest acc).
    now rewrite H2, H1, app_assoc.
Qed.

(** The entries the assignment loop appends when it walks over a
    dictionary with distinct keys, none of them in the accumulator. *)
Lemma assign_all_appends g (h : string * value -> option value)
    (suffix acc : dict) :
  NoDup (Dict.keys suffix) ->
  (forall k, In k (Dict.keys suffix) -> ~ In k (Dict.keys acc)) ->
  (forall k v, In (k, v) suffix -> g k = h (k, v)) ->
  Dict.assign_all g (Dict.keys suffix) acc =
  acc ++ flat_map (fun kv => match h kv with
                             | Some w => [(fst kv, w)]
                             | None => []
                             end) suffix.
Proof.
  revert acc. induction suffix as [| [k v] rest IH]; intros acc Hnd Hfresh Hg; simpl.
  - now rewrite app_nil_r.
  - inversion Hnd as [| ? ? Hk Hnd']; subst.
    rewrite (Hg k v) by now left.
    change (fold_left _ (Dict.keys rest) ?a) with (Dict.assign_all g (Dict.keys rest) a).
    assert (Hrest : forall k' v', In (k', v') rest -> g k' = h (k', v'))
      by (intros k' v' H; apply Hg; now right).
    destruct (h (k, v)) as [w |]; simpl.
    + rewrite set_new_key by (apply Hfresh; now left).
      rewrite IH; [now rewrite <- app_assoc | exact Hnd' | | exact Hrest].
      intros k' Hk' Hin. unfold Dict.keys in Hin. rewrite map_app in Hin.
      apply in_app_or in Hin. destruct Hin as [Hin | [<- | []]].
      * apply (Hfresh k'); [now right | exact Hin].
      * now apply Hk.
    + apply IH; [exact Hnd' | | exact Hrest].
      intros k' Hk'. apply Hfresh. now right.
Qed.

(** A lookup in the result of [remove_empty_parameters] finds exactly the
    keys of the input whose value is truthy, each with that value: no
    such key is dropped, and a key that is missing or holds [None], an
    empty string, an empty list or the integer 0 is not found. *)
Theorem remove_empty_parameters_lookup (m : dict) (k : string) :
  Dict.get (remove_empty_parameters m) k = keep_truthy (Dict.get m k).
Proof. apply get_comprehension. Qed.

(** On a dictionary (distinct keys) [remove_empty_parameters] keeps the
    entries with a truthy value in the order they had. *)
Theorem remove_empty_parameters_preserves_order (m : dict) :
  NoDup (Dict.keys m) ->
  remove_empty_parameters m = filter (fun kv => truthy (snd kv)) m.
Proof.
  intros Hnd. unfold remove_empty_parameters, Dict.comprehension.
  rewrite (assign_all_appends _
             (fun kv => if truthy (snd kv) then Some (snd kv) else None) m []);
    [| exact Hnd | intros k _ [] |].
  - simpl. clear Hnd. induction m as [| [k v] rest IH]; simpl; [reflexivity |].
    destruct (truthy v); simpl; now rewrite IH.
  - intros k v H. now rewrite (NoDup_In_get m k v Hnd H).
Qed.

Lemma remove_empty_parameters_preserves_order_witness :
  remove_empty_parameters
    [("id", VNone); ("name", VStr "x"); ("country", VStr ""); ("year_founded", VInt 1981)]
  = [("name", VStr "x"); ("year_founded", VInt 1981)].
Proof.
  apply (remove_empty_parameters_preserves_order
           [("id", VNone); ("name", VStr "x"); ("country", VStr "");
            ("year_founded", VInt 1981)]).
  repeat constructor; simpl; intuition discriminate.
Defined.

(** On a dictionary (distinct keys) the payload of the abort lists the
    keys in the order of the mapping, each with its message. *)
Theorem validation_messages_in_order (rp : dict) :
  NoDup (Dict.keys rp) ->
  validation_messages rp =
  map (fun kv => (fst kv, invalid_message (fst kv) (snd kv))) rp.
Proof.
  intros Hnd. unfold validation_messages, Dict.comprehension.
  rewrite (assign_all_appends _
             (fun kv => Some (invalid_message (fst kv) (snd kv))) rp []);
    [| exact Hnd | intros k _ [] |].
  - simpl. clear Hnd. induction rp as [| [k v] rest IH]; simpl; [reflexivity |].
    now rewrite IH.
  - intros k v H. now rewrite (NoDup_In_get rp k v Hnd H).
Qed.

Lemma validation_messages_in_order_witness :
  validation_messages [("song_id", VStr "-4"); ("sheet_id", VInt 3)] =
  [("song_id", VStr "Invalid song_id: -4. song_id must be a positive integer");
   ("sheet_id", VStr "Invalid sheet_id: 3. sheet_id must be a positive integer")].
Proof.
  apply (validation_messages_in_order [("song_id", VStr "-4"); ("sheet_id", VInt 3)]).
  repeat constructor; simpl; intuition discriminate.
Defined.

(** The normalizer neither loses nor invents a key: the keys of its
    result are those of the raw mapping, in their order and at the
    front, followed by the keys only the parser has; distinct keys stay
    distinct. *)
Theorem consolidate_parameters_keys (raw parsed : dict) :
  exists merged,
    consolidate_parameters raw (parser_of parsed) = Return merged /\
    (forall k, In k (Dict.keys merged) <->
               In k (Dict.keys raw) \/ In k (Dict.keys parsed)) /\
    (exists extra, Dict.keys merged = Dict.keys raw ++ extra) /\
    (NoDup (Dict.keys raw) -> NoDup (Dict.keys merged)).
Proof.
  exists (Dict.update (Dict.copy raw) parsed). split; [reflexivity |].
  repeat apply conj.
  - intros k. rewrite !in_keys_iff_get. rewrite get_update. unfold Dict.copy.
    destruct (Dict.get parsed k) as [v |].
    + split; [intros _; right; now exists v | intros _; now exists v].
    + split; [intros H; now left | intros [H | [v H]]; [exact H | discriminate]].
  - apply keys_assign_all_extends.
  - apply NoDup_keys_assign_all.
Qed.

(** With no raw parameter the normalizer returns the parsed mapping as it
    is, and with an empty parsed mapping the raw one. *)
Theorem consolidate_parameters_empty_side (d : dict) :
  NoDup (Dict.keys d) ->
  consolidate_parameters [] (parser_of d) = Return d /\
  consolidate_parameters d (parser_of []) = Return d.
Proof.
  intros Hnd. split; [| reflexivity].
  unfold consolidate_parameters, Dict.update, Dict.copy. simpl. f_equal.
  apply (assign_all_rebuild _ d []); [exact Hnd |].
  intros k v H. now apply NoDup_In_get.
Qed.

Lemma consolidate_parameters_empty_side_witness :
  consolidate_parameters [] (parser_of [("id", VNone); ("name", VStr "x")])
  = Return [("id", VNone); ("name", VStr "x")].
Proof.
  apply (consolidate_parameters_empty_side [("id", VNone); ("name", VStr "x")]).
  repeat constructor; simpl; intuition discriminate.
Defined.

(** The filter of a list route, key by key: the parsed value when the
    parser has the key, the raw value otherwise, and in both cases only
    when the value is truthy.  A key the parser reports as [None] is
    dropped even when the raw mapping has a value for it. *)
Theorem list_filter_lookup (raw parsed : dict) :
  exists merged,
    consolidate_parameters raw (parser_of parsed) = Return merged /\
    forall k,
      Dict.get (remove_empty_parameters merged) k =
      match Dict.get parsed k with
      | Some v => keep_truthy (Some v)
      | None => keep_truthy (Dict.get raw k)
      end.
Proof.
  exists (Dict.update (Dict.copy raw) parsed). split; [reflexivity |].
  intros k. rewrite get_remove_empty, get_update. unfold Dict.copy.
  now destruct (Dict.get parsed k).
Qed.

(* ===================================================================== *)
(** ** Further properties of the single-item routes *)
(* ===================================================================== *)

Section ByIdFacts.

Variable Record : Type.
Variable backend : retriever -> dict -> result (list Record).

(** Each route of the table is [by_id_get] at a key that ends in [_id]. *)
Lemma by_id_routes_inv key label r (h : string -> M (payload Record)) :
  In (key, label, r, h) (by_id_routes backend) ->
  h = by_id_get Record backend key label r /\ endswith key "_id" = true.
Proof.
  intros H. simpl in H.
  repeat (destruct H as [H | H]; [injection H as <- <- <- <-; now split |]).
  destruct H.
Qed.

Lemma validation_messages_single (key : string) (v : value) :
  validation_messages [(key, v)] = [(key, invalid_message key v)].
Proof.
  unfold validation_messages, Dict.comprehension. simpl.
  now rewrite String.eqb_refl.
Qed.

Lemma by_id_get_rejects key label r (entity_id : string) (n : Z) (st : state) :
  endswith key "_id" = true ->
  int (VStr entity_id) = Return n -> n < 1 ->
  by_id_get Record backend key label r entity_id st =
  (Raise (Abort 400 "Input payload validation failed"
            [(key, invalid_message key (VStr entity_id))]),
   logged st ERROR ("Incorrect value for parameter " ++ key ++ "=" ++ entity_id)%string).
Proof.
  intros He Hi Hn. unfold by_id_get. unfold bind at 1.
  rewrite (guard_aborts [(key, VStr entity_id)] [] [] key (VStr entity_id) n st);
    try assumption; try reflexivity.
  - cbn [Dict.keys map fst existsb].
    rewrite (id_suffix_no_abort_keyword key He).
    now rewrite validation_messages_single.
  - constructor.
  - simpl. now rewrite String.eqb_refl.
Qed.

Lemma by_id_get_conversion_fails key label r (entity_id : string) (e : exc)
    (st : state) :
  endswith key "_id" = true ->
  int (VStr entity_id) = Raise e ->
  by_id_get Record backend key label r entity_id st = (Raise e, st).
Proof.
  intros He Hi. unfold by_id_get. unfold bind at 1.
  unfold abort_on_invalid_parameters. simpl. unfold bind at 1.
  rewrite (check_parameter_conversion_fails _ key (VStr entity_id) e);
    try assumption; try reflexivity.
  simpl. now rewrite String.eqb_refl.
Qed.

(** Past the guard: the backend call, whatever it gives. *)
Lemma by_id_get_after_guard key label r (entity_id : string) (n : Z) (st : state) :
  int (VStr entity_id) = Return n -> 1 <= n ->
  by_id_get Record backend key label r entity_id st =
  match backend r [("id", VInt n)] with
  | Return retrieved =>
      by_id_get Record backend key label r entity_id st
  | Raise e => (Raise e, called st r [("id", VInt n)])
  end.
Proof.
  intros Hi Hn. destruct (backend r [("id", VInt n)]) as [retrieved | e] eqn:Hb;
    [reflexivity |].
  unfold by_id_get.
  unfold bind at 1. rewrite (guard_single_accepts key entity_id n st Hi Hn).
  unfold bind at 1. unfold lift at 1. rewrite Hi.
  unfold bind at 1. unfold get_objects at 1. now rewrite Hb.
Qed.

End ByIdFacts.

(** A path identifier that is an integer below 1 ([0], [-1]) is refused
    on every single-item route: status 400, the fixed message, a payload
    with the one key of the route and its message, one ERROR record, and
    no backend call. *)
Theorem by_id_rejects_non_positive (Record : Type)
    (backend : retriever -> dict -> result (list Record))
    key label r (h : string -> M (payload Record))
    (entity_id : string) (n : Z) (st : state) :
  In (key, label, r, h) (by_id_routes backend) ->
  int (VStr entity_id) = Return n -> n < 1 ->
  h entity_id st =
  (Raise (Abort 400 "Input payload validation failed"
            [(key, invalid_message key (VStr entity_id))]),
   logged st ERROR ("Incorrect value for parameter " ++ key ++ "=" ++ entity_id)%string) /\
  status_code (fst (h entity_id st)) = 400 /\
  calls (snd (h entity_id st)) = calls st.
Proof.
  intros Hin Hi Hn. apply by_id_routes_inv in Hin. destruct Hin as [-> He].
  rewrite (by_id_get_rejects Record backend key label r entity_id n st He Hi Hn).
  repeat split.
Qed.

(** [GET /genres/-1] *)
Lemma by_id_rejects_non_positive_witness :
  GenreById_get nat two_backend "-1" initial =
  (Raise (Abort 400 "Input payload validation failed"
            [("genre_id", VStr "Invalid genre_id: -1. genre_id must be a positive integer")]),
   mkState [(ERROR, "Incorrect value for parameter genre_id=-1"%string)] []).
Proof.
  apply (proj1 (by_id_rejects_non_positive nat two_backend
                  "genre_id" "Genre" GenreRetriever (GenreById_get nat two_backend)
                  "-1" (-1) initial
                  (or_intror (or_introl eq_refl)) eq_refl eq_refl)).
Defined.

(** For every path segment made of ASCII characters, a single-item route
    issues at most one backend call, to its own backend, and the filter
    of that call is [{id: n}] for the integer [n >= 1] the segment stands
    for. *)
Theorem by_id_calls_positive_id_only (Record : Type)
    (backend : retriever -> dict -> result (list Record))
    key label r (h : string -> M (payload Record))
    (entity_id : string) (st : state) :
  In (key, label, r, h) (by_id_routes backend) ->
  is_ascii entity_id = true ->
  calls (snd (h entity_id st)) = calls st \/
  exists n, int (VStr entity_id) = Return n /\ 1 <= n /\
            calls (snd (h entity_id st)) = calls st ++ [(r, [("id", VInt n)])].
Proof.
  intros Hin _. apply by_id_routes_inv in Hin. destruct Hin as [-> He].
  destruct (int (VStr entity_id)) as [n | e] eqn:Hi.
  - destruct (Z.lt_ge_cases n 1) as [Hn | Hn].
    + left. now rewrite (by_id_get_rejects Record backend key label r entity_id n st He Hi Hn).
    + right. exists n. repeat split; [exact Hn |].
      rewrite (by_id_get_after_guard Record backend key label r entity_id n st Hi Hn).
      destruct (backend r [("id", VInt n)]) as [retrieved | e] eqn:Hb; [| reflexivity].
      now rewrite (by_id_get_run Record backend key label r entity_id n retrieved st Hi Hn Hb).
  - left. now rewrite (by_id_get_conversion_fails Record backend key label r entity_id e st He Hi).
Qed.

(** [GET /songs/0x1f] and [GET /songs/31] *)
Lemma by_id_calls_positive_id_only_witness :
  (calls (snd (SongById_get nat two_backend "0x1f" initial)) = [] \/
   exists n, int (VStr "0x1f") = Return n /\ 1 <= n /\
             calls (snd (SongById_get nat two_backend "0x1f" initial)) =
             [] ++ [(SongRetriever, [("id", VInt n)])]) /\
  (calls (snd (SongById_get nat two_backend "31" initial)) = [] \/
   exists n, int (VStr "31") = Return n /\ 1 <= n /\
             calls (snd (SongById_get nat two_backend "31" initial)) =
             [] ++ [(SongRetriever, [("id", VInt n)])]).
Proof.
  split.
  - apply (by_id_calls_positive_id_only nat two_backend
             "song_id" "Song" SongRetriever (SongById_get nat two_backend) "0x1f" initial);
      [simpl; tauto | reflexivity].
  - apply (by_id_calls_positive_id_only nat two_backend
             "song_id" "Song" SongRetriever (SongById_get nat two_backend) "31" initial);
      [simpl; tauto | reflexivity].
Defined.

(** A lookup that finds nothing writes one WARNING record,
    [<Entity> was not found for ID=<segment>], with the entity name of
    the route and the path segment as it came; a lookup that finds a
    record writes nothing. *)
Theorem by_id_warns_on_miss (Record : Type)
    (backend : retriever -> dict -> result (list Record))
    key label r (h : string -> M (payload Record))
    (entity_id : string) (n : Z) (retrieved : list Record) (st : state) :
  In (key, label, r, h) (by_id_routes backend) ->
  int (VStr entity_id) = Return n -> 1 <= n ->
  backend r [("id", VInt n)] = Return retrieved ->
  log (snd (h entity_id st)) =
  log st ++ match retrieved with
            | [] => [(WARNING, (label ++ " was not found for ID=" ++ entity_id)%string)]
            | _ :: _ => []
            end.
Proof.
  intros Hin Hi Hn Hb. apply by_id_routes_inv in Hin. destruct Hin as [-> _].
  now rewrite (by_id_get_run Record backend key label r entity_id n retrieved st Hi Hn Hb).
Qed.

(** [GET /sheets/ 7 ] with nothing found: the segment is logged with its
    spaces. *)
Lemma by_id_warns_on_miss_witness :
  log (snd (SheetById_get nat empty_backend " 7 " initial)) =
  [(WARNING, "Sheet was not found for ID= 7 "%string)].
Proof.
  apply (by_id_warns_on_miss nat empty_backend
           "sheet_id" "Sheet" SheetRetriever (SheetById_get nat empty_backend)
           " 7 " 7 [] initial).
  - simpl. tauto.
  - reflexivity.
  - discriminate.
  - reflexivity.
Defined.

(** When the backend raises, a single-item route ends with that
    exception, after the one call and with no record in the log: the
    failure is neither caught nor turned into the empty answer. *)
Theorem by_id_backend_failure_propagates (Record : Type)
    (backend : retriever -> dict -> result (list Record))
    key label r (h : string -> M (payload Record))
    (entity_id : string) (n : Z) (e : exc) (st : state) :
  In (key, label, r, h) (by_id_routes backend) ->
  int (VStr entity_id) = Return n -> 1 <= n ->
  backend r [("id", VInt n)] = Raise e ->
  h entity_id st = (Raise e, called st r [("id", VInt n)]).
Proof.
  intros Hin Hi Hn Hb. apply by_id_routes_inv in Hin. destruct Hin as [-> _].
  rewrite (by_id_get_after_guard Record backend key label r entity_id n st Hi Hn).
  now rewrite Hb.
Qed.

(** [GET /songs/3] with a song backend that fails. *)
Lemma by_id_backend_failure_propagates_witness :
  SongById_get nat song_failing_backend "3" initial =
  (Raise (OtherError "OperationalError"),
   mkState [] [(SongRetriever, [("id", VInt 3)])]).
Proof.
  apply (by_id_backend_failure_propagates nat song_failing_backend
           "song_id" "Song" SongRetriever (SongById_get nat song_failing_backend)
           "3" 3 (OtherError "OperationalError") initial).
  - simpl. tauto.
  - reflexivity.
  - discriminate.
  - reflexivity.
Defined.

(* ===================================================================== *)
(** ** Further properties of the list routes and the combined search *)
(* ===================================================================== *)

Section ListFacts.

Variable Record : Type.
Variable backend : retriever -> dict -> result (list Record).

Lemma list_routes_inv r (h : dict -> RequestParser -> M (payload Record)) :
  In (r, h) (list_routes backend) -> h = list_get Record backend r.
Proof.
  intros H. simpl in H.
  repeat (destruct H as [H | H]; [injection H as <- <-; reflexivity |]).
  destruct H.
Qed.

Lemma list_get_run r (args : dict) (parser : RequestParser) (merged : dict)
    (st : state) :
  consolidate_parameters args parser = Return merged ->
  list_get Record backend r args parser st =
  (match backend r (remove_empty_parameters merged) with
   | Return objects => Return (PList objects)
   | Raise e => Raise e
   end,
   called st r (remove_empty_parameters merged)).
Proof.
  intros Hc. unfold list_get, bind, lift, get_objects. rewrite Hc.
  now destruct (backend r (remove_empty_parameters merged)).
Qed.

Lemma combined_get_parse_failure (args : dict) (parser : RequestParser)
    (e : exc) (st : state) :
  parse_args parser = Raise e ->
  CombinedArtistSongRelease_get Record backend args parser st = (Raise e, st).
Proof.
  intros Hp. unfold CombinedArtistSongRelease_get, bind, lift, consolidate_parameters.
  now rewrite Hp.
Qed.

End ListFacts.

(** A list route whose parameters parse issues exactly one call, to its
    own backend, with the consolidated parameters minus the empty ones,
    and writes nothing to the log.  It answers with the list the backend
    returns, as it is, and when the backend raises, with that
    exception. *)
Theorem list_route_run (Record : Type)
    (backend : retriever -> dict -> result (list Record))
    r (h : dict -> RequestParser -> M (payload Record))
    (args : dict) (parser : RequestParser) (merged : dict) (st : state) :
  In (r, h) (list_routes backend) ->
  consolidate_parameters args parser = Return merged ->
  h args parser st =
  (match backend r (remove_empty_parameters merged) with
   | Return objects => Return (PList objects)
   | Raise e => Raise e
   end,
   called st r (remove_empty_parameters merged)).
Proof.
  intros Hin Hc. apply list_routes_inv in Hin. subst h.
  now apply list_get_run.
Qed.

(** [GET /songs-artists?name=x&release_id=4&foo=] *)
Lemma list_route_run_witness :
  SongsWithArtists_get nat two_backend
    [("name", VStr "x"); ("release_id", VStr "4"); ("foo", VStr "")]
    (parser_of [("id", VNone); ("name", VStr "x"); ("original_id", VNone);
                ("release_id", VInt 4)])
    initial =
  (Return (PList [7; 9]%nat),
   mkState [] [(SongWithArtistsRetriever, [("name", VStr "x"); ("release_id", VInt 4)])]).
Proof.
  apply (list_route_run nat two_backend SongWithArtistsRetriever
           (SongsWithArtists_get nat two_backend)
           [("name", VStr "x"); ("release_id", VStr "4"); ("foo", VStr "")]
           (parser_of [("id", VNone); ("name", VStr "x"); ("original_id", VNone);
                       ("release_id", VInt 4)])
           [("name", VStr "x"); ("release_id", VInt 4); ("foo", VStr "");
            ("id", VNone); ("original_id", VNone)]
           initial).
  - simpl. tauto.
  - reflexivity.
Defined.

(** When the parser refuses the request, every list route and the
    combined search end with the parser's exception: no backend is
    called and nothing is logged. *)
Theorem parse_failure_reaches_no_backend (Record : Type)
    (backend : retriever -> dict -> result (list Record))
    (args : dict) (parser : RequestParser) (e : exc) (st : state) :
  parse_args parser = Raise e ->
  (forall r h, In (r, h) (list_routes backend) -> h args parser st = (Raise e, st)) /\
  CombinedArtistSongRelease_get Record backend args parser st = (Raise e, st).
Proof.
  intros Hp. split.
  - intros r h Hin. apply list_routes_inv in Hin. subst h.
    now apply list_get_parse_failure.
  - now apply combined_get_parse_failure.
Qed.

(** [GET /artists?year_founded=abc] and the combined search, refused. *)
Lemma parse_failure_reaches_no_backend_witness :
  status_code (fst (Artists_get nat two_backend
                      [("year_founded", VStr "abc")] refusing_parser initial)) = 400 /\
  snd (Artists_get nat two_backend
         [("year_founded", VStr "abc")] refusing_parser initial) = initial /\
  snd (CombinedArtistSongRelease_get nat two_backend
         [("year_founded", VStr "abc")] refusing_parser initial) = initial.
Proof.
  destruct (parse_failure_reaches_no_backend nat two_backend
              [("year_founded", VStr "abc")] refusing_parser _ initial eq_refl)
    as [Hlist Hcombined].
  rewrite Hcombined.
  rewrite (Hlist ArtistRetriever (Artists_get nat two_backend) (or_introl eq_refl)).
  repeat split.
Defined.

Lemma get_remove_same (d : dict) (k : string) :
  NoDup (Dict.keys d) -> Dict.get (Dict.remove d k) k = None.
Proof.
  induction d as [| [k0 w] rest IH]; simpl; intros Hnd; [reflexivity |].
  inversion Hnd as [| ? ? Hk Hnd']; subst.
  destruct (String.eqb_spec k0 k) as [-> | Hne]; simpl.
  - now apply get_not_in_keys.
  - destruct (String.eqb_spec k0 k); [contradiction | auto].
Qed.

Lemma in_keys_remove (d : dict) (k k' : string) :
  In k' (Dict.keys (Dict.remove d k)) -> In k' (Dict.keys d).
Proof.
  induction d as [| [k0 w] rest IH]; simpl; [tauto |].
  destruct (String.eqb k0 k); simpl; tauto.
Qed.

Lemma NoDup_keys_remove (d : dict) (k : string) :
  NoDup (Dict.keys d) -> NoDup (Dict.keys (Dict.remove d k)).
Proof.
  induction d as [| [k0 w] rest IH]; simpl; intros Hnd; [constructor |].
  inversion Hnd as [| ? ? Hk Hnd']; subst.
  destruct (String.eqb k0 k); simpl; [exact Hnd' |].
  constructor; [| auto]. intros Hin. apply Hk. eapply in_keys_remove; eassumption.
Qed.

Section CombinedFacts.

Variable Record : Type.
Variable backend : retriever -> dict -> result (list Record).

(** The calls of the combined search past its test of the substring:
    some of the three, all with the one filter. *)
Lemma combined_get_calls (args : dict) (parser : RequestParser) (merged : dict)
    (s : value) (st : state) :
  consolidate_parameters args parser = Return merged ->
  Dict.get merged "substring" = Some s -> truthy s = true ->
  exists issued,
    calls (snd (CombinedArtistSongRelease_get Record backend args parser st)) =
      calls st ++ issued /\
    forall r f, In (r, f) issued -> f = combined_filters merged s.
Proof.
  intros Hc Hg Ht.
  rewrite (combined_get_run Record backend args parser merged s st Hc Hg Ht).
  unfold bind, get_objects, ret. cbn [log calls].
  destruct (backend ArtistRetriever (combined_filters merged s));
    [destruct (backend SongRetriever (combined_filters merged s));
     [destruct (backend ReleaseRetriever (combined_filters merged s)) | ] | ];
    cbn [snd calls]; rewrite <- ?app_assoc; simpl;
    eexists; (split; [reflexivity |]);
    intros r f H; simpl in H;
    repeat (destruct H as [H | H]; [now injection H as _ <- |]); destruct H.
Qed.

(** With a substring that is missing or falsy the combined search issues
    no call (the general form of this is the theorem of C1). *)
Lemma combined_get_no_call (args : dict) (parser : RequestParser) (st : state) :
  (forall merged s,
      consolidate_parameters args parser = Return merged ->
      Dict.get merged "substring" = Some s -> truthy s = false) ->
  calls (snd (CombinedArtistSongRelease_get Record backend args parser st)) = calls st.
Proof.
  intros H. unfold CombinedArtistSongRelease_get.
  unfold bind at 1. unfold lift at 1.
  destruct (consolidate_parameters args parser) as [merged | e] eqn:Hc; [| reflexivity].
  unfold bind at 1. unfold lift at 1. unfold Dict.pop.
  destruct (Dict.get merged "substring") as [s |] eqn:Hg; [| reflexivity].
  cbn [fst snd]. unfold bind at 1. unfold lift at 1. unfold Dict.getitem.
  rewrite get_set_same, (H merged s eq_refl Hg). reflexivity.
Qed.

End CombinedFacts.

(** The key [substring] does not reach the backends: for a request with
    distinct parameter names, whatever the parser and the backends do,
    every call the combined search issues has a filter without the key
    [substring], with [sort_by] set to [len(name)!asc], and with distinct
    keys. *)
Theorem combined_search_never_forwards_substring (Record : Type)
    (backend : retriever -> dict -> result (list Record))
    (args : dict) (parser : RequestParser) (st : state) :
  NoDup (Dict.keys args) ->
  exists issued,
    calls (snd (CombinedArtistSongRelease_get Record backend args parser st)) =
      calls st ++ issued /\
    forall r f, In (r, f) issued ->
      Dict.get f "substring" = None /\
      Dict.get f "sort_by" = Some (VStr "len(name)!asc") /\
      NoDup (Dict.keys f).
Proof.
  intros Hnd.
  destruct (consolidate_parameters args parser) as [merged | e] eqn:Hc.
  - assert (Hm : NoDup (Dict.keys merged)).
    { unfold consolidate_parameters in Hc.
      destruct (parse_args parser) as [parsed | e]; [| discriminate].
      injection Hc as <-. now apply NoDup_keys_assign_all. }
    destruct (Dict.get merged "substring") as [s |] eqn:Hg.
    + destruct (truthy s) eqn:Ht.
      * destruct (combined_get_calls Record backend args parser merged s st Hc Hg Ht)
          as [issued [Hcalls Hf]].
        exists issued. split; [exact Hcalls |].
        intros r f Hin. rewrite (Hf r f Hin). unfold combined_filters.
        repeat apply conj.
        -- rewrite !get_set_other by discriminate. now apply get_remove_same.
        -- apply get_set_same.
        -- now apply NoDup_keys_set, NoDup_keys_set, NoDup_keys_remove.
      * exists []. split; [| intros r f []]. rewrite app_nil_r.
        apply combined_get_no_call. intros merged' s' Hc' Hg'. congruence.
    + exists []. split; [| intros r f []]. rewrite app_nil_r.
      apply combined_get_no_call. intros merged' s' Hc' Hg'. congruence.
  - exists []. split; [| intros r f []]. rewrite app_nil_r.
    apply combined_get_no_call. intros merged' s' Hc'. congruence.
Qed.

(** [?substring=abc&name=zz&sort_by=id] *)
Lemma combined_search_never_forwards_substring_witness :
  exists issued,
    calls (snd (CombinedArtistSongRelease_get nat two_backend
                  [("substring", VStr "abc"); ("name", VStr "zz"); ("sort_by", VStr "id")]
                  (parser_of [("substring", VStr "abc")]) initial)) =
      [] ++ issued /\
    forall r f, In (r, f) issued ->
      Dict.get f "substring" = None /\
      Dict.get f "sort_by" = Some (VStr "len(name)!asc") /\
      NoDup (Dict.keys f).
Proof.
  apply (combined_search_never_forwards_substring nat two_backend
           [("substring", VStr "abc"); ("name", VStr "zz"); ("sort_by", VStr "id")]
           (parser_of [("substring", VStr "abc")]) initial).
  repeat constructor; simpl; intuition discriminate.
Defined.

(** On a falsy [substring] ([None], the empty string) the combined search
    does not reach its [return None]: the call [logging.info] on the line
    before raises [NameError], the name [logging] being bound nowhere in
    resources.py.  The request ends with that exception (status 500),
    with no record in the log and no backend call. *)
Theorem combined_search_empty_raises_NameError (Record : Type)
    (backend : retriever -> dict -> result (list Record))
    (args : dict) (parser : RequestParser) (merged : dict) (s : value)
    (st : state) :
  consolidate_parameters args parser = Return merged ->
  Dict.get merged "substring" = Some s -> truthy s = false ->
  CombinedArtistSongRelease_get Record backend args parser st =
  (Raise (NameError "logging"), st) /\
  status_code (fst (CombinedArtistSongRelease_get Record backend args parser st)) = 500.
Proof.
  intros Hc Hg Ht.
  assert (H : CombinedArtistSongRelease_get Record backend args parser st =
              (Raise (NameError "logging"), st)).
  { unfold CombinedArtistSongRelease_get.
    unfold bind at 1. unfold lift at 1. rewrite Hc.
    unfold bind at 1. unfold lift at 1. unfold Dict.pop. rewrite Hg. cbn [fst snd].
    unfold bind at 1. unfold lift at 1. unfold Dict.getitem.
    rewrite get_set_same, Ht. reflexivity. }
  now rewrite H.
Qed.

(** The request with no [substring], which the parser reports as [None]. *)
Lemma combined_search_empty_raises_NameError_witness :
  CombinedArtistSongRelease_get nat two_backend
    [] (parser_of [("substring", VNone)]) initial =
  (Raise (NameError "logging"), initial).
Proof.
  apply (proj1 (combined_search_empty_raises_NameError nat two_backend
                  [] (parser_of [("substring", VNone)]) [("substring", VNone)] VNone
                  initial eq_refl eq_refl eq_refl)).
Defined.

(** The combined search calls its backends one after the other and stops
    at the first that raises: the request ends with that exception, the
    later backends are not called, and the results already retrieved are
    not returned. *)
Theorem combined_search_stops_at_failure (Record : Type)
    (backend : retriever -> dict -> result (list Record))
    (args : dict) (parser : RequestParser) (merged : dict) (s : value)
    (e : exc) (st : state) :
  consolidate_parameters args parser = Return merged ->
  Dict.get merged "substring" = Some s -> truthy s = true ->
  (backend ArtistRetriever (combined_filters merged s) = Raise e ->
   CombinedArtistSongRelease_get Record backend args parser st =
   (Raise e, mkState (log st)
               (calls st ++ [(ArtistRetriever, combined_filters merged s)]))) /\
  (forall artists,
      backend ArtistRetriever (combined_filters merged s) = Return artists ->
      backend SongRetriever (combined_filters merged s) = Raise e ->
      CombinedArtistSongRelease_get Record backend args parser st =
      (Raise e, mkState (log st)
                  (calls st ++ [(ArtistRetriever, combined_filters merged s);
                                (SongRetriever, combined_filters merged s)]))) /\
  (forall artists songs,
      backend ArtistRetriever (combined_filters merged s) = Return artists ->
      backend SongRetriever (combined_filters merged s) = Return songs ->
      backend ReleaseRetriever (combined_filters merged s) = Raise e ->
      CombinedArtistSongRelease_get Record backend args parser st =
      (Raise e, mkState (log st)
                  (calls st ++ [(ArtistRetriever, combined_filters merged s);
                                (SongRetriever, combined_filters merged s);
                                (ReleaseRetriever, combined_filters merged s)]))).
Proof.
  intros Hc Hg Ht.
  rewrite (combined_get_run Record backend args parser merged s st Hc Hg Ht).
  unfold bind, get_objects, ret. cbn [log calls].
  repeat apply conj.
  - intros Ha. now rewrite Ha.
  - intros artists Ha Hs. rewrite Ha, Hs. now rewrite <- !app_assoc.
  - intros artists songs Ha Hs Hr. rewrite Ha, Hs, Hr. now rewrite <- !app_assoc.
Qed.

(** [?substring=abc] with a song backend that fails: the artist and song
    backends are called, the release backend is not. *)
Lemma combined_search_stops_at_failure_witness :
  CombinedArtistSongRelease_get nat song_failing_backend
    [("substring", VStr "abc")] (parser_of [("substring", VStr "abc")]) initial =
  (Raise (OtherError "OperationalError"),
   mkState []
     [(ArtistRetriever, [("name", VStr "abc"); ("sort_by", VStr "len(name)!asc")]);
      (SongRetriever, [("name", VStr "abc"); ("sort_by", VStr "len(name)!asc")])]).
Proof.
  destruct (combined_search_stops_at_failure nat song_failing_backend
              [("substring", VStr "abc")] (parser_of [("substring", VStr "abc")])
              [("substring", VStr "abc")] (VStr "abc")
              (OtherError "OperationalError") initial eq_refl eq_refl eq_refl)
    as (_ & Hsong & _).
  exact (Hsong [7; 9]%nat eq_refl eq_refl).
Defined.
